(** * ROI calculator: derived-state calculation engine

    A shallow embedding of the calculation code of the ROI calculator
    ([apps/roi-calculator-app/src/main.tsx] and the two versions of
    [value-analysis.tsx]) and the properties its specification states
    (C1 to C10), followed by further properties of that code, of the donut
    chart ([pie-chart.tsx]) and of the dial ([circular-slider.tsx]) (X1 to
    X30).

    Numbers.  The program computes on JavaScript numbers.  They are embedded
    as exact rationals [Q], compared with [==]: every statement below is a
    statement of exact arithmetic, and the binary rounding of IEEE doubles is
    outside the model.  [Math.round] rounds half-way cases up, as in
    ECMAScript.  Division by zero, which yields [NaN] or an infinity in
    JavaScript, is [0] in [Q]; no theorem below relies on a division whose
    divisor can be zero. *)

From Stdlib Require Import QArith Qround Qminmax Qabs Lqa ZArith Lia.
From Stdlib Require Import List String Permutation Sorted.
Import ListNotations.

Local Open Scope Q_scope.

(** ** The [Math] object *)

Module Math.

(** [Math.round(x)]: the integer nearest to [x], ties towards +infinity. *)
Definition round (x : Q) : Q := inject_Z (Qfloor (x + 0.5)).

Definition ceil (x : Q) : Q := inject_Z (Qceiling x).

Definition min (x y : Q) : Q := Qmin x y.

Definition max (x y : Q) : Q := Qmax x y.

End Math.

(** ** Data model ([main.tsx]) *)

Record CalculationInputs : Type := mkInputs {
  employeeCount : Q;
  securityIncidentsPerMonth : Q;
  averageIncidentResponseTime : Q;
  falsePositiveRate : Q;
  pricePerSecurityIncident : Q;
  humanSOCAnalysts : Q;
  humanSOCManager : Q;
  humanSOCEngineer : Q;
  humanSOCDirector : Q;
  legacySIEMPricePerGB : Q;
  stellarXDRCostPerGB : Q;
  switchFromLegacySIEM : bool;
  logVolumeIncidentRatio : Q;
  monthlyLogVolumeGB : Q;
  stellarXDRPlatformCosts : Q;
  siemLicensingCosts : Q
}.

Record CalculationResults : Type := mkResults {
  humanSOCTotalCost : Q;
  autonomousSOCTotalCost : Q;
  adjustedAnnualSOCCost : Q;
  platformSavings : Q;
  annualSavings : Q;
  roiPercentage : Q;
  paybackPeriod : Q;
  efficiencyImprovement : Q;
  incidentResponseImprovement : Q
}.

(** [typeof baseInputs]: the fields that are stored and restored. *)
Module Base.

Record t : Type := mk {
  employeeCount : Q;
  averageIncidentResponseTime : Q;
  falsePositiveRate : Q;
  pricePerSecurityIncident : Q;
  legacySIEMPricePerGB : Q;
  stellarXDRCostPerGB : Q;
  logVolumeIncidentRatio : Q;
  switchFromLegacySIEM : bool
}.

End Base.

Definition baseInputs : Base.t := {|
  Base.employeeCount := 500;
  Base.averageIncidentResponseTime := 4;
  Base.falsePositiveRate := 90;
  Base.pricePerSecurityIncident := 3;
  Base.legacySIEMPricePerGB := 3;
  Base.stellarXDRCostPerGB := 2;
  Base.logVolumeIncidentRatio := 1.5;
  Base.switchFromLegacySIEM := true
|}.

(** ** Field derivation *)

Definition calculateComputedFields (base : Base.t) : CalculationInputs :=
  let ratio := 2400 / 500 in
  let securityIncidentsPerMonth := Math.round (Base.employeeCount base * ratio) in
  let monthlyLogVolumeGB :=
    Math.round (securityIncidentsPerMonth * Base.logVolumeIncidentRatio base) in
  let stellarXDRPlatformCosts :=
    monthlyLogVolumeGB * Base.stellarXDRCostPerGB base * 12 in
  let siemLicensingCosts :=
    monthlyLogVolumeGB * Base.legacySIEMPricePerGB base * 12 in
  {| employeeCount := Base.employeeCount base;
     averageIncidentResponseTime := Base.averageIncidentResponseTime base;
     falsePositiveRate := Base.falsePositiveRate base;
     pricePerSecurityIncident := Base.pricePerSecurityIncident base;
     legacySIEMPricePerGB := Base.legacySIEMPricePerGB base;
     stellarXDRCostPerGB := Base.stellarXDRCostPerGB base;
     logVolumeIncidentRatio := Base.logVolumeIncidentRatio base;
     switchFromLegacySIEM := Base.switchFromLegacySIEM base;
     securityIncidentsPerMonth := securityIncidentsPerMonth;
     monthlyLogVolumeGB := monthlyLogVolumeGB;
     stellarXDRPlatformCosts := stellarXDRPlatformCosts;
     siemLicensingCosts := siemLicensingCosts;
     humanSOCAnalysts := Math.ceil (securityIncidentsPerMonth / 1000);
     humanSOCManager := Math.ceil (securityIncidentsPerMonth / 3000);
     humanSOCEngineer := Math.ceil (securityIncidentsPerMonth / 3000);
     humanSOCDirector := Math.ceil (securityIncidentsPerMonth / 6000) |}.

Definition defaultInputs : CalculationInputs := calculateComputedFields baseInputs.

(** [keyof CalculationInputs]. *)
Module Key.

Inductive t : Set :=
| employeeCount
| securityIncidentsPerMonth
| averageIncidentResponseTime
| falsePositiveRate
| pricePerSecurityIncident
| humanSOCAnalysts
| humanSOCManager
| humanSOCEngineer
| humanSOCDirector
| legacySIEMPricePerGB
| stellarXDRCostPerGB
| switchFromLegacySIEM
| logVolumeIncidentRatio
| monthlyLogVolumeGB
| stellarXDRPlatformCosts
| siemLicensingCosts.

(** The type of the value an edit of a key carries: every call site of
    [handleInputChange] passes a number for a numeric key and the checkbox
    state for the flag. *)
Definition value (field : t) : Type :=
  match field with
  | switchFromLegacySIEM => bool
  | _ => Q
  end.

End Key.

(** [{ ...r, [field]: value }], also used for [r.field = value] on the
    copy that [handleInputChange] builds. *)
Definition assign (r : CalculationInputs) (field : Key.t)
  : Key.value field -> CalculationInputs :=
  let '(mkInputs ec si rt fp pp an mg en di lp sc sw lr lv sx sl) := r in
  match field with
  | Key.employeeCount => fun v => mkInputs v si rt fp pp an mg en di lp sc sw lr lv sx sl
  | Key.securityIncidentsPerMonth => fun v => mkInputs ec v rt fp pp an mg en di lp sc sw lr lv sx sl
  | Key.averageIncidentResponseTime => fun v => mkInputs ec si v fp pp an mg en di lp sc sw lr lv sx sl
  | Key.falsePositiveRate => fun v => mkInputs ec si rt v pp an mg en di lp sc sw lr lv sx sl
  | Key.pricePerSecurityIncident => fun v => mkInputs ec si rt fp v an mg en di lp sc sw lr lv sx sl
  | Key.humanSOCAnalysts => fun v => mkInputs ec si rt fp pp v mg en di lp sc sw lr lv sx sl
  | Key.humanSOCManager => fun v => mkInputs ec si rt fp pp an v en di lp sc sw lr lv sx sl
  | Key.humanSOCEngineer => fun v => mkInputs ec si rt fp pp an mg v di lp sc sw lr lv sx sl
  | Key.humanSOCDirector => fun v => mkInputs ec si rt fp pp an mg en v lp sc sw lr lv sx sl
  | Key.legacySIEMPricePerGB => fun v => mkInputs ec si rt fp pp an mg en di v sc sw lr lv sx sl
  | Key.stellarXDRCostPerGB => fun v => mkInputs ec si rt fp pp an mg en di lp v sw lr lv sx sl
  | Key.switchFromLegacySIEM => fun v => mkInputs ec si rt fp pp an mg en di lp sc v lr lv sx sl
  | Key.logVolumeIncidentRatio => fun v => mkInputs ec si rt fp pp an mg en di lp sc sw v lv sx sl
  | Key.monthlyLogVolumeGB => fun v => mkInputs ec si rt fp pp an mg en di lp sc sw lr v sx sl
  | Key.stellarXDRPlatformCosts => fun v => mkInputs ec si rt fp pp an mg en di lp sc sw lr lv v sl
  | Key.siemLicensingCosts => fun v => mkInputs ec si rt fp pp an mg en di lp sc sw lr lv sx v
  end.

Notation "r '.[' field '<-' v ']'" := (assign r field v)
  (at level 1, left associativity, format "r .[ field  <-  v ]").

(** The state updater of [handleInputChange]: [prev] is the current record,
    the result is the record that replaces it.  The [if (field === ...)]
    blocks are exclusive and appear as the branches of one match; each
    assignment to [newInputs] is one [let].  Writing the base fields to
    local storage has no effect on the returned record and is left out. *)
Definition handleInputChange (prev : CalculationInputs) (field : Key.t)
  (value : Key.value field) : CalculationInputs :=
  let newInputs := prev.[field <- value] in
  match field return Key.value field -> CalculationInputs with
  | Key.employeeCount => fun value =>
      let ratio := securityIncidentsPerMonth defaultInputs / employeeCount defaultInputs in
      let newIncidents := Math.round (value * ratio) in
      let newInputs := newInputs.[Key.securityIncidentsPerMonth <- newIncidents] in
      let newInputs := newInputs.[Key.humanSOCAnalysts <- Math.ceil (newIncidents / 1000)] in
      let newInputs := newInputs.[Key.humanSOCManager <- Math.ceil (newIncidents / 3000)] in
      let newInputs := newInputs.[Key.humanSOCEngineer <- Math.ceil (newIncidents / 3000)] in
      let newInputs := newInputs.[Key.humanSOCDirector <- Math.ceil (newIncidents / 6000)] in
      let newLogVolume := Math.round (newIncidents * logVolumeIncidentRatio newInputs) in
      let newInputs := newInputs.[Key.monthlyLogVolumeGB <- newLogVolume] in
      let newInputs := newInputs.[Key.stellarXDRPlatformCosts <-
                                    newLogVolume * stellarXDRCostPerGB newInputs * 12] in
      newInputs.[Key.siemLicensingCosts <- newLogVolume * legacySIEMPricePerGB newInputs * 12]
  | Key.securityIncidentsPerMonth => fun value =>
      let incidents := value in
      let ratio := securityIncidentsPerMonth defaultInputs / employeeCount defaultInputs in
      let newEmployeeCount := Math.round (incidents / ratio) in
      let newInputs := newInputs.[Key.employeeCount <- newEmployeeCount] in
      let newInputs := newInputs.[Key.humanSOCAnalysts <- Math.ceil (incidents / 1000)] in
      let newInputs := newInputs.[Key.humanSOCManager <- Math.ceil (incidents / 3000)] in
      let newInputs := newInputs.[Key.humanSOCEngineer <- Math.ceil (incidents / 3000)] in
      let newInputs := newInputs.[Key.humanSOCDirector <- Math.ceil (incidents / 6000)] in
      let newLogVolume := Math.round (incidents * logVolumeIncidentRatio newInputs) in
      let newInputs := newInputs.[Key.monthlyLogVolumeGB <- newLogVolume] in
      let newInputs := newInputs.[Key.stellarXDRPlatformCosts <-
                                    newLogVolume * stellarXDRCostPerGB newInputs * 12] in
      newInputs.[Key.siemLicensingCosts <- newLogVolume * legacySIEMPricePerGB newInputs * 12]
  | Key.logVolumeIncidentRatio => fun value =>
      let newLogVolume := Math.round (securityIncidentsPerMonth newInputs * value) in
      let newInputs := newInputs.[Key.monthlyLogVolumeGB <- newLogVolume] in
      let newInputs := newInputs.[Key.stellarXDRPlatformCosts <-
                                    newLogVolume * stellarXDRCostPerGB newInputs * 12] in
      newInputs.[Key.siemLicensingCosts <- newLogVolume * legacySIEMPricePerGB newInputs * 12]
  | Key.stellarXDRCostPerGB => fun value =>
      newInputs.[Key.stellarXDRPlatformCosts <- monthlyLogVolumeGB newInputs * value * 12]
  | Key.legacySIEMPricePerGB => fun value =>
      newInputs.[Key.siemLicensingCosts <- monthlyLogVolumeGB newInputs * value * 12]
  | _ => fun _ => newInputs
  end value.

(** ** Financial comparison ([calculateROI]) *)

Definition calculateEfficiencyImprovement (inputs : CalculationInputs) : Q :=
  let baseEfficiency := 38 in
  let falsePositiveImpact := Math.min (falsePositiveRate inputs * 0.2) 15 in
  let responseTimeImpact := Math.min (averageIncidentResponseTime inputs * 3) 25 in
  let oneTiBInGB := 1024 in
  let excessLogVolume := Math.max 0 (monthlyLogVolumeGB inputs - oneTiBInGB) in
  let logVolumeImpact := Math.min (excessLogVolume * 0.001) 15 in
  let totalEfficiency :=
    baseEfficiency + falsePositiveImpact + responseTimeImpact + logVolumeImpact in
  Math.min totalEfficiency 80.

Definition calculateIncidentResponseImprovement (inputs : CalculationInputs) : Q :=
  let baseImprovement := 45 in
  let responseTimeImpact := Math.min (averageIncidentResponseTime inputs * 2) 15 in
  let falsePositiveImpact := Math.min (falsePositiveRate inputs * 0.15) 8 in
  let totalImprovement := baseImprovement + responseTimeImpact + falsePositiveImpact in
  Math.min totalImprovement 80.

(** [autonomousSOCAnnualCost], a local of [calculateROI]. *)
Definition autonomousSOCAnnualCost (inputs : CalculationInputs) : Q :=
  let autonomousSOCMonthlyCost :=
    securityIncidentsPerMonth inputs * pricePerSecurityIncident inputs in
  autonomousSOCMonthlyCost * 12.

Definition calculateROI (inputs : CalculationInputs) : CalculationResults :=
  let analystSalary := 85000 in
  let managerSalary := 120000 in
  let engineerSalary := 150000 in
  let directorSalary := 200000 in
  let humanSOCPersonnelCost :=
    humanSOCAnalysts inputs * analystSalary +
    humanSOCManager inputs * managerSalary +
    humanSOCEngineer inputs * engineerSalary +
    humanSOCDirector inputs * directorSalary in
  let humanSOCTotalCost := humanSOCPersonnelCost + siemLicensingCosts inputs in
  let autonomousSOCAnnualCost := autonomousSOCAnnualCost inputs in
  let efficiencyImprovement := calculateEfficiencyImprovement inputs in
  let incidentResponseImprovement := calculateIncidentResponseImprovement inputs in
  let adjustedAnnualSOCCost := humanSOCTotalCost * (1 - efficiencyImprovement / 100) in
  let platformSavings := siemLicensingCosts inputs - stellarXDRPlatformCosts inputs in
  let annualSavings :=
    humanSOCTotalCost - (adjustedAnnualSOCCost + autonomousSOCAnnualCost) + platformSavings in
  let roiPercentage :=
    if Qeq_bool autonomousSOCAnnualCost 0 then 0
    else (annualSavings / autonomousSOCAnnualCost) * 100 in
  let paybackPeriod := 0 in
  {| humanSOCTotalCost := humanSOCTotalCost;
     autonomousSOCTotalCost := autonomousSOCAnnualCost;
     adjustedAnnualSOCCost := adjustedAnnualSOCCost;
     platformSavings := platformSavings;
     annualSavings := annualSavings;
     roiPercentage := roiPercentage;
     paybackPeriod := paybackPeriod;
     efficiencyImprovement := efficiencyImprovement;
     incidentResponseImprovement := incidentResponseImprovement |}.

(** ** Value analysis ([value-analysis.tsx]) *)

(** [ValueAnalysisProps]. *)
Module Props.

Record inputs : Type := mkInputs {
  falsePositiveRate : Q;
  securityIncidentsPerMonth : Q;
  averageIncidentResponseTime : Q;
  humanSOCAnalysts : Q;
  employeeCount : Q
}.

Record results : Type := mkResults {
  annualSavings : Q;
  humanSOCTotalCost : Q;
  autonomousSOCTotalCost : Q
}.

Record t : Type := mk { inputs_ : inputs; results_ : results }.

End Props.

(** The props [ROICalculator] renders [<ValueAnalysis>] with. *)
Definition valueAnalysisProps (inputs : CalculationInputs)
  (results : CalculationResults) : Props.t :=
  {| Props.inputs_ :=
       {| Props.falsePositiveRate := falsePositiveRate inputs;
          Props.securityIncidentsPerMonth := securityIncidentsPerMonth inputs;
          Props.averageIncidentResponseTime := averageIncidentResponseTime inputs;
          Props.humanSOCAnalysts := humanSOCAnalysts inputs;
          Props.employeeCount := employeeCount inputs |};
     Props.results_ :=
       {| Props.annualSavings := annualSavings results;
          Props.humanSOCTotalCost := humanSOCTotalCost results;
          Props.autonomousSOCTotalCost := autonomousSOCTotalCost results |} |}.

(** An entry of [valueCategories]. *)
Record Category : Type := mkCategory {
  name : string;
  value : Q;
  description : string
}.

(** [Array.prototype.sort(compare)]: a stable sort; [compare a b > 0] puts
    [a] after [b]. *)
Section ArraySort.

Context {A : Type} (compare : A -> A -> Q).

Fixpoint insert (a : A) (l : list A) : list A :=
  match l with
  | [] => [a]
  | b :: l' => if Qle_bool (compare a b) 0 then a :: l else b :: insert a l'
  end.

Definition sort (l : list A) : list A := fold_right insert [] l.

End ArraySort.

(** [values.reduce((sum, value) => sum + value, 0)]. *)
Definition sum (values : list Q) : Q := fold_left Qplus values 0.

(** The number [formatPercentage] prints: the share of [value] in
    [totalValue], in percent. *)
Definition percentageShare (totalValue value : Q) : Q := (value / totalValue) * 100.

(** The first version of the component: ten value categories. *)
Module ValueAnalysis.

Record ValueMetrics : Type := mkMetrics {
  falsePositiveReduction : Q;
  riskReduction : Q;
  productivityImprovement : Q;
  incidentResponseTime : Q;
  analystRetention : Q;
  complianceEfficiency : Q;
  threatIntelligence : Q;
  automationValue : Q;
  stressReduction : Q;
  shiftCoverage : Q
}.

Definition calculateValueMetrics (inputs : Props.inputs) : ValueMetrics :=
  let baseAnalystSalary := 85000 in
  let analystHoursPerYear := 2080 in
  let analystHourlyRate := baseAnalystSalary / analystHoursPerYear in
  let currentFalsePositives :=
    Props.securityIncidentsPerMonth inputs * (Props.falsePositiveRate inputs / 100) * 12 in
  let reducedFalsePositives := Props.securityIncidentsPerMonth inputs * 0.05 * 12 in
  let falsePositiveReduction :=
    (currentFalsePositives - reducedFalsePositives) * 2 * analystHourlyRate in
  let riskReductionPerIncident := 5000 in
  let riskReduction :=
    Props.securityIncidentsPerMonth inputs * 12 * riskReductionPerIncident * 0.3 in
  let productivityHoursSaved :=
    Props.humanSOCAnalysts inputs * analystHoursPerYear * 0.4 in
  let productivityImprovement := productivityHoursSaved * analystHourlyRate * 1.5 in
  let timeReduction := Props.averageIncidentResponseTime inputs * 0.85 in
  let incidentResponseTime :=
    Props.securityIncidentsPerMonth inputs * 12 * timeReduction * analystHourlyRate * 2 in
  let turnoverCost := baseAnalystSalary * 0.5 in
  let analystRetention := Props.humanSOCAnalysts inputs * turnoverCost * 0.6 in
  let complianceHoursPerYear := Props.humanSOCAnalysts inputs * 200 in
  let complianceEfficiency := complianceHoursPerYear * analystHourlyRate * 0.7 in
  let threatIntelligence := Props.employeeCount inputs * 50 in
  let automationHours := Props.humanSOCAnalysts inputs * analystHoursPerYear * 0.3 in
  let automationValue := automationHours * analystHourlyRate in
  let stressReductionValue := Props.humanSOCAnalysts inputs * 15000 in
  let shiftCoverageValue := Props.humanSOCAnalysts inputs * 20000 in
  {| falsePositiveReduction := falsePositiveReduction;
     riskReduction := riskReduction;
     productivityImprovement := productivityImprovement;
     incidentResponseTime := incidentResponseTime;
     analystRetention := analystRetention;
     complianceEfficiency := complianceEfficiency;
     threatIntelligence := threatIntelligence;
     automationValue := automationValue;
     stressReduction := stressReductionValue;
     shiftCoverage := shiftCoverageValue |}.

(** [Object.values(valueMetrics)], in the order the object is built. *)
Definition values (valueMetrics : ValueMetrics) : list Q :=
  [ falsePositiveReduction valueMetrics; riskReduction valueMetrics;
    productivityImprovement valueMetrics; incidentResponseTime valueMetrics;
    analystRetention valueMetrics; complianceEfficiency valueMetrics;
    threatIntelligence valueMetrics; automationValue valueMetrics;
    stressReduction valueMetrics; shiftCoverage valueMetrics ].

Definition totalValue (props : Props.t) : Q :=
  sum (values (calculateValueMetrics (Props.inputs_ props))).

(** The share [formatPercentage] computes; printing it with one decimal
    and a percent sign is presentation and is left out. *)
Definition formatPercentage (props : Props.t) (value : Q) : Q :=
  percentageShare (totalValue props) value.

Definition valueCategories (props : Props.t) : list Category :=
  let valueMetrics := calculateValueMetrics (Props.inputs_ props) in
  sort (fun a b => value b - value a)
    [ mkCategory "False Positive Reduction" (falsePositiveReduction valueMetrics)
        "Reduced analyst burnout and wasted time";
      mkCategory "Risk Reduction" (riskReduction valueMetrics)
        "Prevented incident escalation costs";
      mkCategory "Productivity Improvement" (productivityImprovement valueMetrics)
        "Analysts focus on high-value tasks";
      mkCategory "Faster Response Time" (incidentResponseTime valueMetrics)
        "Reduced incident impact and costs";
      mkCategory "Analyst Retention" (analystRetention valueMetrics)
        "Reduced turnover and training costs";
      mkCategory "Compliance Efficiency" (complianceEfficiency valueMetrics)
        "Streamlined compliance processes";
      mkCategory "Threat Intelligence" (threatIntelligence valueMetrics)
        "Better threat detection and prevention";
      mkCategory "Automation Value" (automationValue valueMetrics)
        "Automated repetitive tasks";
      mkCategory "Stress Reduction" (stressReduction valueMetrics)
        "Improved analyst well-being and decision making";
      mkCategory "24/7 Coverage" (shiftCoverage valueMetrics)
        "Continuous monitoring without shift premiums" ].

End ValueAnalysis.

(** The second version of the component: eight value categories, with risk
    reduction and response time computed on the genuine incidents. *)
Module ValueAnalysisGenuine.

Record ValueMetrics : Type := mkMetrics {
  falsePositiveReduction : Q;
  riskReduction : Q;
  productivityImprovement : Q;
  incidentResponseTime : Q;
  analystRetention : Q;
  complianceEfficiency : Q;
  stressReduction : Q;
  shiftCoverage : Q
}.

Definition calculateValueMetrics (inputs : Props.inputs) : ValueMetrics :=
  let baseAnalystSalary := 85000 in
  let analystHoursPerYear := 2080 in
  let analystHourlyRate := baseAnalystSalary / analystHoursPerYear in
  let currentFalsePositives :=
    Props.securityIncidentsPerMonth inputs * (Props.falsePositiveRate inputs / 100) * 12 in
  let reducedFalsePositives := Props.securityIncidentsPerMonth inputs * 0.05 * 12 in
  let falsePositiveReduction :=
    (currentFalsePositives - reducedFalsePositives) * 2 * analystHourlyRate in
  let riskReductionPerIncident := 5000 in
  let genuineIncidentsPerMonth :=
    Props.securityIncidentsPerMonth inputs * (1 - Props.falsePositiveRate inputs / 100) in
  let riskReduction := genuineIncidentsPerMonth * 12 * riskReductionPerIncident * 0.3 in
  let productivityHoursSaved :=
    Props.humanSOCAnalysts inputs * analystHoursPerYear * 0.4 in
  let productivityImprovement := productivityHoursSaved * analystHourlyRate * 1.5 in
  let truePositivesPerMonth :=
    Props.securityIncidentsPerMonth inputs * (1 - Props.falsePositiveRate inputs / 100) in
  let falsePositivesPerMonth :=
    Props.securityIncidentsPerMonth inputs * (Props.falsePositiveRate inputs / 100) in
  let truePositiveTimeSavings :=
    truePositivesPerMonth * 12 * Props.averageIncidentResponseTime inputs * 0.85
    * analystHourlyRate in
  let falsePositiveInvestigationTime := 1 in
  let falsePositiveTimeSavings :=
    falsePositivesPerMonth * 12 * falsePositiveInvestigationTime * 0.1
    * analystHourlyRate in
  let incidentResponseTime := truePositiveTimeSavings + falsePositiveTimeSavings in
  let turnoverCost := baseAnalystSalary * 0.5 in
  let analystRetention := Props.humanSOCAnalysts inputs * turnoverCost * 0.6 in
  let complianceHoursPerYear := Props.humanSOCAnalysts inputs * 200 in
  let complianceEfficiency := complianceHoursPerYear * analystHourlyRate * 0.7 in
  let stressReductionValue := Props.humanSOCAnalysts inputs * 15000 in
  let shiftCoverageValue := Props.humanSOCAnalysts inputs * 20000 in
  {| falsePositiveReduction := falsePositiveReduction;
     riskReduction := riskReduction;
     productivityImprovement := productivityImprovement;
     incidentResponseTime := incidentResponseTime;
     analystRetention := analystRetention;
     complianceEfficiency := complianceEfficiency;
     stressReduction := stressReductionValue;
     shiftCoverage := shiftCoverageValue |}.

Definition values (valueMetrics : ValueMetrics) : list Q :=
  [ falsePositiveReduction valueMetrics; riskReduction valueMetrics;
    productivityImprovement valueMetrics; incidentResponseTime valueMetrics;
    analystRetention valueMetrics; complianceEfficiency valueMetrics;
    stressReduction valueMetrics; shiftCoverage valueMetrics ].

Definition totalValue (props : Props.t) : Q :=
  sum (values (calculateValueMetrics (Props.inputs_ props))).

(** The share [formatPercentage] computes; printing it with one decimal
    and a percent sign is presentation and is left out. *)
Definition formatPercentage (props : Props.t) (value : Q) : Q :=
  percentageShare (totalValue props) value.

Definition valueCategories (props : Props.t) : list Category :=
  let valueMetrics := calculateValueMetrics (Props.inputs_ props) in
  sort (fun a b => value b - value a)
    [ mkCategory "False Positive Reduction" (falsePositiveReduction valueMetrics)
        "Reduced analyst burnout and wasted time";
      mkCategory "Risk Reduction" (riskReduction valueMetrics)
        "Prevented incident escalation costs";
      mkCategory "Productivity Improvement" (productivityImprovement valueMetrics)
        "Analysts focus on high-value tasks";
      mkCategory "Faster Response Time" (incidentResponseTime valueMetrics)
        "Reduced incident impact and costs";
      mkCategory "Analyst Retention" (analystRetention valueMetrics)
        "Reduced turnover and training costs";
      mkCategory "Compliance Efficiency" (complianceEfficiency valueMetrics)
        "Streamlined compliance processes";
      mkCategory "Stress Reduction" (stressReduction valueMetrics)
        "Improved analyst well-being and decision making";
      mkCategory "24/7 Coverage" (shiftCoverage valueMetrics)
        "Continuous monitoring without shift premiums" ].

End ValueAnalysisGenuine.

(** [computeValueBreakdown]: the categories the component shows for a
    record, in either version. *)
Definition computeValueBreakdown (inputs : CalculationInputs) : list Category :=
  ValueAnalysis.valueCategories (valueAnalysisProps inputs (calculateROI inputs)).

Definition computeValueBreakdownGenuine (inputs : CalculationInputs) : list Category :=
  ValueAnalysisGenuine.valueCategories (valueAnalysisProps inputs (calculateROI inputs)).

(** ** Records and predicates the statements use *)

(** One manager, no licensing or platform cost, four hours of response time:
    the human cost is 120000, the efficiency gain 50 percent, and 1000
    incidents at 5 per incident cost the 60000 saved. *)
Definition breakEvenInputs : CalculationInputs := {|
  employeeCount := 208;
  securityIncidentsPerMonth := 1000;
  averageIncidentResponseTime := 4;
  falsePositiveRate := 0;
  pricePerSecurityIncident := 5;
  humanSOCAnalysts := 0;
  humanSOCManager := 1;
  humanSOCEngineer := 0;
  humanSOCDirector := 0;
  legacySIEMPricePerGB := 3;
  stellarXDRCostPerGB := 2;
  switchFromLegacySIEM := true;
  logVolumeIncidentRatio := 0;
  monthlyLogVolumeGB := 0;
  stellarXDRPlatformCosts := 0;
  siemLicensingCosts := 0
|}.

(** Every numeric field of the record is non-negative. *)
Definition nonnegativeInputs (inputs : CalculationInputs) : Prop :=
  0 <= employeeCount inputs /\
  0 <= securityIncidentsPerMonth inputs /\
  0 <= averageIncidentResponseTime inputs /\
  0 <= falsePositiveRate inputs /\
  0 <= pricePerSecurityIncident inputs /\
  0 <= humanSOCAnalysts inputs /\
  0 <= humanSOCManager inputs /\
  0 <= humanSOCEngineer inputs /\
  0 <= humanSOCDirector inputs /\
  0 <= legacySIEMPricePerGB inputs /\
  0 <= stellarXDRCostPerGB inputs /\
  0 <= logVolumeIncidentRatio inputs /\
  0 <= monthlyLogVolumeGB inputs /\
  0 <= stellarXDRPlatformCosts inputs /\
  0 <= siemLicensingCosts inputs.

Definition nonnegativeValue (c : Category) : Prop := 0 <= value c.

Definition nonnegativeValueb (c : Category) : bool := Qle_bool 0 (value c).

(** Two records that agree on every field but [switchFromLegacySIEM]. *)
Definition equalExceptSwitch (a b : CalculationInputs) : Prop :=
  employeeCount a = employeeCount b /\
  securityIncidentsPerMonth a = securityIncidentsPerMonth b /\
  averageIncidentResponseTime a = averageIncidentResponseTime b /\
  falsePositiveRate a = falsePositiveRate b /\
  pricePerSecurityIncident a = pricePerSecurityIncident b /\
  humanSOCAnalysts a = humanSOCAnalysts b /\
  humanSOCManager a = humanSOCManager b /\
  humanSOCEngineer a = humanSOCEngineer b /\
  humanSOCDirector a = humanSOCDirector b /\
  legacySIEMPricePerGB a = legacySIEMPricePerGB b /\
  stellarXDRCostPerGB a = stellarXDRCostPerGB b /\
  logVolumeIncidentRatio a = logVolumeIncidentRatio b /\
  monthlyLogVolumeGB a = monthlyLogVolumeGB b /\
  stellarXDRPlatformCosts a = stellarXDRPlatformCosts b /\
  siemLicensingCosts a = siemLicensingCosts b.

(** ** Persistence ([loadInputsFromStorage] and the save in [handleInputChange]) *)

(** [baseFieldsToSave]: the object [handleInputChange] writes to local
    storage. *)
Definition baseFieldsToSave (newInputs : CalculationInputs) : Base.t := {|
  Base.employeeCount := employeeCount newInputs;
  Base.averageIncidentResponseTime := averageIncidentResponseTime newInputs;
  Base.falsePositiveRate := falsePositiveRate newInputs;
  Base.pricePerSecurityIncident := pricePerSecurityIncident newInputs;
  Base.legacySIEMPricePerGB := legacySIEMPricePerGB newInputs;
  Base.stellarXDRCostPerGB := stellarXDRCostPerGB newInputs;
  Base.logVolumeIncidentRatio := logVolumeIncidentRatio newInputs;
  Base.switchFromLegacySIEM := switchFromLegacySIEM newInputs
|}.

(** The object [JSON.parse] returns for a stored item: any of the base
    fields may be missing. *)
Module Parsed.

Record t : Type := mk {
  employeeCount : option Q;
  averageIncidentResponseTime : option Q;
  falsePositiveRate : option Q;
  pricePerSecurityIncident : option Q;
  legacySIEMPricePerGB : option Q;
  stellarXDRCostPerGB : option Q;
  logVolumeIncidentRatio : option Q;
  switchFromLegacySIEM : option bool
}.

End Parsed.

(** [JSON.parse(JSON.stringify(base))]: every field is present, with its
    value. *)
Definition stringifyParse (base : Base.t) : Parsed.t := {|
  Parsed.employeeCount := Some (Base.employeeCount base);
  Parsed.averageIncidentResponseTime := Some (Base.averageIncidentResponseTime base);
  Parsed.falsePositiveRate := Some (Base.falsePositiveRate base);
  Parsed.pricePerSecurityIncident := Some (Base.pricePerSecurityIncident base);
  Parsed.legacySIEMPricePerGB := Some (Base.legacySIEMPricePerGB base);
  Parsed.stellarXDRCostPerGB := Some (Base.stellarXDRCostPerGB base);
  Parsed.logVolumeIncidentRatio := Some (Base.logVolumeIncidentRatio base);
  Parsed.switchFromLegacySIEM := Some (Base.switchFromLegacySIEM base)
|}.

(** [{ ...base, ...parsed }]. *)
Definition spread (base : Base.t) (parsed : Parsed.t) : Base.t :=
  let pick {A : Type} (stored : option A) (default : A) : A :=
    match stored with Some v => v | None => default end in
  {| Base.employeeCount :=
       pick (Parsed.employeeCount parsed) (Base.employeeCount base);
     Base.averageIncidentResponseTime :=
       pick (Parsed.averageIncidentResponseTime parsed)
         (Base.averageIncidentResponseTime base);
     Base.falsePositiveRate :=
       pick (Parsed.falsePositiveRate parsed) (Base.falsePositiveRate base);
     Base.pricePerSecurityIncident :=
       pick (Parsed.pricePerSecurityIncident parsed)
         (Base.pricePerSecurityIncident base);
     Base.legacySIEMPricePerGB :=
       pick (Parsed.legacySIEMPricePerGB parsed) (Base.legacySIEMPricePerGB base);
     Base.stellarXDRCostPerGB :=
       pick (Parsed.stellarXDRCostPerGB parsed) (Base.stellarXDRCostPerGB base);
     Base.logVolumeIncidentRatio :=
       pick (Parsed.logVolumeIncidentRatio parsed) (Base.logVolumeIncidentRatio base);
     Base.switchFromLegacySIEM :=
       pick (Parsed.switchFromLegacySIEM parsed) (Base.switchFromLegacySIEM base) |}.

(** [saved] is what reading and parsing the stored item gives: [None] when
    there is no item, or when reading or parsing it throws. *)
Definition loadInputsFromStorage (saved : option Parsed.t) : CalculationInputs :=
  match saved with
  | Some parsed =>
      let loadedBaseInputs := spread baseInputs parsed in
      calculateComputedFields loadedBaseInputs
  | None => defaultInputs
  end.

(** The record a reload shows after [newInputs] was saved. *)
Definition reload (newInputs : CalculationInputs) : CalculationInputs :=
  loadInputsFromStorage (Some (stringifyParse (baseFieldsToSave newInputs))).

(** The keys of [baseInputs], which are the keys that are saved. *)
Definition isBaseKey (field : Key.t) : bool :=
  match field with
  | Key.employeeCount | Key.averageIncidentResponseTime | Key.falsePositiveRate
  | Key.pricePerSecurityIncident | Key.legacySIEMPricePerGB
  | Key.stellarXDRCostPerGB | Key.logVolumeIncidentRatio
  | Key.switchFromLegacySIEM => true
  | _ => false
  end.

(** The keys an edit of which starts the cascade from the incident count. *)
Definition isDrivingKey (field : Key.t) : bool :=
  match field with
  | Key.employeeCount | Key.securityIncidentsPerMonth => true
  | _ => false
  end.

(** An edit with a non-negative number (the flag carries no number). *)
Definition nonnegativeEdit (field : Key.t) : Key.value field -> Prop :=
  match field with
  | Key.switchFromLegacySIEM => fun _ => True
  | _ => fun v => 0 <= v
  end.

(** [h] is the least whole number of people that covers [incidents] at
    [perPerson] incidents each. *)
Definition leastCover (h incidents perPerson : Q) : Prop :=
  (exists n : Z, h = inject_Z n) /\
  incidents <= h * perPerson /\ (h - 1) * perPerson < incidents.

(** The two annual platform costs are what the log volume and the two
    prices per GB give. *)
Definition costsCurrent (r : CalculationInputs) : Prop :=
  stellarXDRPlatformCosts r == monthlyLogVolumeGB r * stellarXDRCostPerGB r * 12 /\
  siemLicensingCosts r == monthlyLogVolumeGB r * legacySIEMPricePerGB r * 12.

(** The keys whose edit recomputes both platform costs. *)
Definition isCascadeKey (field : Key.t) : bool :=
  match field with
  | Key.employeeCount | Key.securityIncidentsPerMonth
  | Key.logVolumeIncidentRatio => true
  | _ => false
  end.

(** The keys whose edit overwrites the log volume or a platform cost
    directly. *)
Definition isVolumeOrCostKey (field : Key.t) : bool :=
  match field with
  | Key.monthlyLogVolumeGB | Key.stellarXDRPlatformCosts
  | Key.siemLicensingCosts => true
  | _ => false
  end.

(** ** Operational view of the results ([main.tsx], the results panel) *)

Record OperationalSummary : Type := mkSummary {
  totalHeadcount : Q;
  optimizedHeadcount : Q;
  freedEmployees : Q;
  monthlyTimeSavings : Q;
  annualTimeSavings : Q
}.

(** The locals the results panel computes before it renders. *)
Definition operationalSummary (inputs : CalculationInputs)
  (results : CalculationResults) : OperationalSummary :=
  let totalHeadcount :=
    humanSOCAnalysts inputs + humanSOCManager inputs + humanSOCEngineer inputs
    + humanSOCDirector inputs in
  let optimizedHeadcount :=
    Math.max 0 (Math.ceil (totalHeadcount * (1 - efficiencyImprovement results / 100))) in
  let freedEmployees := Math.max 0 (totalHeadcount - optimizedHeadcount) in
  let monthlyHoursPerEmployee := 2080 / 12 in
  let monthlyTimeSavings :=
    totalHeadcount * monthlyHoursPerEmployee * (efficiencyImprovement results / 100) in
  let annualTimeSavings := monthlyTimeSavings * 12 in
  {| totalHeadcount := totalHeadcount;
     optimizedHeadcount := optimizedHeadcount;
     freedEmployees := freedEmployees;
     monthlyTimeSavings := monthlyTimeSavings;
     annualTimeSavings := annualTimeSavings |}.

(** A whole, non-negative number. *)
Definition wholeNumber (q : Q) : Prop := exists n : Z, (0 <= n)%Z /\ q == inject_Z n.

(** The record with the three fields the improvements read cut at the
    values beyond which they have no further effect. *)
Definition saturated (inputs : CalculationInputs) (fpCap rtCap : Q) : CalculationInputs :=
  inputs.[Key.falsePositiveRate <- Qmin (falsePositiveRate inputs) fpCap]
        .[Key.averageIncidentResponseTime <-
            Qmin (averageIncidentResponseTime inputs) rtCap]
        .[Key.monthlyLogVolumeGB <-
            Qmin (Qmax (monthlyLogVolumeGB inputs) 1024) 16024].

(** [a] is listed before [b]: its value is not below the value of [b]. *)
Definition listedBefore (a b : Category) : Prop := value b <= value a.

(** The figure of the "Operational Efficiency" insight of the first version
    of the component, before it is printed without decimals. *)
Definition automationShareShown (props : Props.t) : Q :=
  let inputs := Props.inputs_ props in
  let valueMetrics := ValueAnalysis.calculateValueMetrics inputs in
  (ValueAnalysis.automationValue valueMetrics / (Props.humanSOCAnalysts inputs * 85000))
  * 100.

(** ** The donut chart ([pie-chart.tsx]) *)

(** [x < y] on numbers, as a test. *)
Definition Qltb (x y : Q) : bool := negb (Qle_bool y x).

Module PieChart.

(** [PieChartData]. *)
Record Data : Type := mkData {
  name : string;
  value : Q;
  color : string;
  description : option string
}.

(** [data.reduce((sum, item) => sum + item.value, 0)]. *)
Definition total (data : list Data) : Q :=
  fold_left (fun sum item => sum + value item) data 0.

(** What [createArc] draws of a slice, as far as it is rational: the two
    angles, in degrees, and the large-arc flag of the SVG path.  The end
    points of the arc are the cosine and sine of the angles. *)
Record Arc : Type := mkArc {
  startAngle : Q;
  endAngle : Q;
  largeArcFlag : Z
}.

Definition createArc (startAngle endAngle : Q) : Arc :=
  let largeArcFlag := if Qle_bool (endAngle - startAngle) 180 then 0%Z else 1%Z in
  mkArc startAngle endAngle largeArcFlag.

(** The body of [data.map] in the render, with [currentAngle] passed along. *)
Fixpoint arcsFrom (total currentAngle : Q) (data : list Data) : list Arc :=
  match data with
  | [] => []
  | item :: rest =>
      let percentage := (value item / total) * 100 in
      let startAngle := currentAngle in
      let endAngle := currentAngle + (percentage * 360) / 100 in
      let arc := createArc startAngle endAngle in
      arc :: arcsFrom total endAngle rest
  end.

(** The slices of a chart: [currentAngle] starts from the top, at -90. *)
Definition arcs (data : list Data) : list Arc := arcsFrom (total data) (-90) data.

(** The adjustment [createArc] makes to the tooltip anchor to keep the
    tooltip within bounds; [tooltipX] and [tooltipY] come in as the point at
    70 percent of the radius on the bisector of the slice. *)
Definition adjustTooltip (size tooltipWidth tooltipHeight tooltipX tooltipY : Q)
  : Q * Q :=
  let margin := 10 in
  let tooltipX :=
    if Qltb (tooltipX - tooltipWidth / 2) margin then margin + tooltipWidth / 2
    else if Qltb (size - margin) (tooltipX + tooltipWidth / 2)
         then size - margin - tooltipWidth / 2
         else tooltipX in
  let tooltipY :=
    if Qltb (tooltipY - tooltipHeight) margin then margin + tooltipHeight
    else if Qltb (size - margin) (tooltipY + tooltipHeight / 2)
         then size - margin - tooltipHeight / 2
         else tooltipY in
  (tooltipX, tooltipY).

(** A rectangle of the drawing: left, top, width, height. *)
Record Rect : Type := mkRect { x : Q; y : Q; width : Q; height : Q }.

(** The rectangle lies within the [size] by [size] drawing. *)
Definition inside (size : Q) (r : Rect) : Prop :=
  0 <= x r /\ x r + width r <= size /\ 0 <= y r /\ y r + height r <= size.

(** First version: a tooltip of 160 by 90. *)
Definition tooltipRectFixed (size tooltipX tooltipY : Q) : Rect :=
  let tooltipWidth := 160 in
  let tooltipHeight := 90 in
  let tooltipPosition := adjustTooltip size tooltipWidth tooltipHeight tooltipX tooltipY in
  mkRect (fst tooltipPosition - 80) (snd tooltipPosition - 70) 160 90.

(** Second version: [getTooltipDimensions], with the length of the formatted
    value as [valueLength]. *)
Definition getTooltipDimensions (name : string) (valueLength : nat)
  (description : option string) : Q * Q :=
  let nameLength := String.length name in
  let descLength :=
    match description with Some d => String.length d | None => 0%nat end in
  let maxTextLength := Nat.max (Nat.max nameLength valueLength) descLength in
  let tooltipWidth :=
    Math.max 160 (Math.min 300 (inject_Z (Z.of_nat maxTextLength) * 8 + 40)) in
  let hasDescription :=
    match description with
    | Some d => Nat.ltb 0 (String.length d)
    | None => false
    end in
  let tooltipHeight := if hasDescription then 110 else 90 in
  (tooltipWidth, tooltipHeight).

Definition tooltipRectFitted (size : Q) (item : Data) (valueLength : nat)
  (tooltipX tooltipY : Q) : Rect :=
  let '(tooltipWidth, tooltipHeight) :=
    getTooltipDimensions (name item) valueLength (description item) in
  let tooltipPosition := adjustTooltip size tooltipWidth tooltipHeight tooltipX tooltipY in
  mkRect (fst tooltipPosition - tooltipWidth / 2)
         (snd tooltipPosition - tooltipHeight + 10) tooltipWidth tooltipHeight.

(** The number of slices drawn with the large-arc flag. *)
Definition largeArcs (l : list Arc) : nat :=
  List.length (filter (fun a => Z.eqb (largeArcFlag a) 1) l).

(** Each slice starts at [from] or where the one before it ends. *)
Fixpoint contiguous (from : Q) (l : list Arc) : Prop :=
  match l with
  | [] => True
  | a :: rest => startAngle a = from /\ contiguous (endAngle a) rest
  end.

End PieChart.

(** The palettes of [getColorForCategory], first and second version. *)
Definition colors : list string :=
  [ "#FF6B6B"; "#4ECDC4"; "#45B7D1"; "#96CEB4"; "#FFEAA7";
    "#DDA0DD"; "#98D8C8"; "#F7DC6F"; "#FF9FF3"; "#54A0FF" ]%string.

Definition colorsGenuine : list string :=
  [ "#60A5FA"; "#34D399"; "#F59E0B"; "#EF4444"; "#8B5CF6";
    "#06B6D4"; "#F97316"; "#EC4899"; "#10B981"; "#6366F1" ]%string.

(** [colors[index % colors.length]]. *)
Definition getColorForCategory (colors : list string) (index : nat) : string :=
  nth (index mod List.length colors) colors EmptyString.

(** [valueCategories.map((category, index) => ...)]: the data handed to the
    chart. *)
Fixpoint chartDataFrom (colors : list string) (index : nat)
  (valueCategories : list Category) : list PieChart.Data :=
  match valueCategories with
  | [] => []
  | category :: rest =>
      PieChart.mkData (name category) (value category)
        (getColorForCategory colors index) (Some (description category))
      :: chartDataFrom colors (S index) rest
  end.

Definition chartData (props : Props.t) : list PieChart.Data :=
  chartDataFrom colors 0 (ValueAnalysis.valueCategories props).

Definition chartDataGenuine (props : Props.t) : list PieChart.Data :=
  chartDataFrom colorsGenuine 0 (ValueAnalysisGenuine.valueCategories props).

(** A chart of three items, of values 1, 2 and 1. *)
Definition sampleChart : list PieChart.Data :=
  [ PieChart.mkData "a" 1 "#FF6B6B" None;
    PieChart.mkData "b" 2 "#4ECDC4" (Some "two"%string);
    PieChart.mkData "c" 1 "#45B7D1" None ].

(** ** The dial ([circular-slider.tsx]) *)

Module CircularSlider.

Section Knob.

(** The props [min], [max] and [step] of the dial. *)
Variables min max step : Q.

Definition valueToRotation (val : Q) : Q :=
  let percentage := (val - min) / (max - min) in
  140 - (percentage * 272).

(** [while (x < 0) x += 360], run at most [fuel] times. *)
Fixpoint whileNegative (fuel : nat) (x : Q) : Q :=
  match fuel with
  | O => x
  | S fuel' => if Qltb x 0 then whileNegative fuel' (x + 360) else x
  end.

(** [while (x >= 360) x -= 360], run at most [fuel] times. *)
Fixpoint whileFullTurn (fuel : nat) (x : Q) : Q :=
  match fuel with
  | O => x
  | S fuel' => if Qle_bool 360 x then whileFullTurn fuel' (x - 360) else x
  end.

(** A number of iterations that is enough for either loop on [x]. *)
Definition turns (x : Q) : nat := Z.to_nat (Qceiling (Qabs x / 360)).

(** The two loops that bring an angle to the range from 0 to 360. *)
Definition normalize (x : Q) : Q :=
  whileFullTurn (turns x) (whileNegative (turns x) x).

Definition rotationToValue (rotation : Q) : Q :=
  let normalizedRotation := normalize rotation in
  let adjustedRotation := normalizedRotation - 140 in
  let adjustedNormalized := normalize adjustedRotation in
  let angleInRange :=
    if andb (Qle_bool 135 adjustedNormalized) (Qle_bool adjustedNormalized 225)
    then 225 - adjustedNormalized
    else if Qltb 225 adjustedNormalized
         then 225 + (360 - adjustedNormalized)
         else 225 + (135 - adjustedNormalized) in
  let percentage := angleInRange / 270 in
  let rawValue := min + (percentage * (max - min)) in
  Math.round (rawValue / step) * step.

(** A point of the pointer event, relative to the knob. *)
Record Point : Type := mkPoint { x : Q; y : Q }.

Definition inCircle (p : Point) (r : Q) : bool :=
  let x := r - x p in
  let y := r - y p in
  Qle_bool (x * x + y * y) (r * r).

(** [handlePointerChange]: the value passed to [onChange], if it is called.
    [value] is the current value, [p] the event point, [r] half the width of
    the knob and [deg] the angle [getDeg] gives for [p] and [r], which is
    computed with a square root and an arc sine. *)
Definition handlePointerChange (value : Q) (p : Point) (r deg : Q) : option Q :=
  if negb (inCircle p r) then None
  else
    let newValue := rotationToValue deg in
    if negb (Qeq_bool newValue value)
    then Some (Math.max min (Math.min max newValue))
    else None.

(** [handleInputChange] of the dial: the value passed to [onChange] for the
    text typed in its field; [parsed] is what [parseFloat] makes of the
    text, [None] for [NaN]. *)
Definition handleInputChange (parsed : option Q) : Q :=
  let newValue :=
    match parsed with
    | Some v => if Qeq_bool v 0 then min else v
    | None => min
    end in
  Math.max min (Math.min max newValue).

End Knob.

End CircularSlider.


(** The keys of the four headcounts. *)
Definition isStaffKey (field : Key.t) : bool :=
  match field with
  | Key.humanSOCAnalysts | Key.humanSOCManager | Key.humanSOCEngineer
  | Key.humanSOCDirector => true
  | _ => false
  end.

(** ** Proof automation *)

(** Replace every [Qmin] and [Qmax] by a variable with its defining
    property, which leaves a linear problem. *)
Ltac name_min a b :=
  let m := fresh "m" in
  let H := fresh "Hm" in
  pose proof (Q.min_spec a b) as H; set (m := Qmin a b) in *; clearbody m.

Ltac name_max a b :=
  let m := fresh "m" in
  let H := fresh "Hm" in
  pose proof (Q.max_spec a b) as H; set (m := Qmax a b) in *; clearbody m.

Ltac split_min :=
  repeat match goal with
  | |- context [Qmin ?a ?b] => name_min a b
  | _ : context [Qmin ?a ?b] |- _ => name_min a b
  | |- context [Qmax ?a ?b] => name_max a b
  | _ : context [Qmax ?a ?b] |- _ => name_max a b
  end.

(** A product of non-negative factors is non-negative; [lra] does not
    divide, so a division by 100 is first turned into a product. *)
Ltac nonnegative_product :=
  repeat apply Qmult_le_0_compat; try apply Qinv_le_0_compat;
  unfold Qdiv; change (/ 100) with (1 # 100); lra.

(** * Properties *)

(** ** Rounding *)

Lemma round_lower (x : Q) : x - 0.5 < Math.round x.
Proof.
  unfold Math.round.
  pose proof (Qlt_floor (x + 0.5)) as H.
  rewrite inject_Z_plus in H. change (inject_Z 1) with 1 in H. lra.
Qed.

Lemma round_upper (x : Q) : Math.round x <= x + 0.5.
Proof. unfold Math.round. apply Qfloor_le. Qed.

Lemma round_comp (x y : Q) : x == y -> Math.round x = Math.round y.
Proof.
  intros E. unfold Math.round. f_equal. apply Qfloor_comp. now rewrite E.
Qed.

(** An integer within half a unit of [x] (the upper end excluded) is its
    rounding. *)
Lemma round_unique (x : Q) (n : Z) :
  inject_Z n - 0.5 <= x -> x < inject_Z n + 0.5 -> Math.round x = inject_Z n.
Proof.
  intros Hlo Hhi. unfold Math.round. f_equal.
  pose proof (Qfloor_le (x + 0.5)) as Hle.
  pose proof (Qlt_floor (x + 0.5)) as Hlt.
  rewrite inject_Z_plus in Hlt. change (inject_Z 1) with 1 in Hlt.
  assert (inject_Z (Qfloor (x + 0.5)) < inject_Z (n + 1)) as H1
    by (rewrite inject_Z_plus; change (inject_Z 1) with 1; lra).
  assert (inject_Z n < inject_Z (Qfloor (x + 0.5) + 1)) as H2
    by (rewrite inject_Z_plus; change (inject_Z 1) with 1; lra).
  rewrite <- Zlt_Qlt in H1, H2. lia.
Qed.


(** ** The caps *)

Lemma efficiency_unfold (inputs : CalculationInputs) :
  efficiencyImprovement (calculateROI inputs) = calculateEfficiencyImprovement inputs.
Proof. reflexivity. Qed.

Lemma response_unfold (inputs : CalculationInputs) :
  incidentResponseImprovement (calculateROI inputs)
  = calculateIncidentResponseImprovement inputs.
Proof. reflexivity. Qed.

(** C1. For every input record, the efficiency improvement that
    [calculateROI] returns is
    min(80, 38 + min(falsePositiveRate * 0.2, 15)
              + min(averageIncidentResponseTime * 3, 25)
              + min(max(0, monthlyLogVolumeGB - 1024) * 0.001, 15)). *)
Theorem efficiencyImprovement_formula (inputs : CalculationInputs) :
  efficiencyImprovement (calculateROI inputs) ==
  Qmin 80 (38 + Qmin (falsePositiveRate inputs * 0.2) 15
              + Qmin (averageIncidentResponseTime inputs * 3) 25
              + Qmin (Qmax 0 (monthlyLogVolumeGB inputs - 1024) * 0.001) 15).
Proof.
  rewrite efficiency_unfold. unfold calculateEfficiencyImprovement, Math.min, Math.max.
  cbv zeta. apply Q.min_comm.
Qed.

(** ** The ROI guard *)

Lemma Qeq_bool_false_neq (x y : Q) : Qeq_bool x y = false <-> ~ x == y.
Proof.
  split.
  - intros E H. apply Qeq_bool_iff in H. congruence.
  - intros H. destruct (Qeq_bool x y) eqn:E; [|reflexivity].
    apply Qeq_bool_iff in E. contradiction.
Qed.

Lemma roi_zero_cost (inputs : CalculationInputs) :
  autonomousSOCAnnualCost inputs == 0 -> roiPercentage (calculateROI inputs) == 0.
Proof.
  intros H. unfold calculateROI. cbv zeta. simpl roiPercentage.
  apply Qeq_bool_iff in H. rewrite H. reflexivity.
Qed.

Lemma roi_nonzero_cost (inputs : CalculationInputs) :
  ~ autonomousSOCAnnualCost inputs == 0 ->
  roiPercentage (calculateROI inputs) ==
  annualSavings (calculateROI inputs) / autonomousSOCAnnualCost inputs * 100.
Proof.
  intros H. unfold calculateROI. cbv zeta. simpl roiPercentage. simpl annualSavings.
  apply Qeq_bool_false_neq in H. rewrite H. reflexivity.
Qed.

(** C2, as stated, fails: at [breakEvenInputs] the autonomous cost is 60000,
    not zero, and the ROI is zero because the annual savings are. *)
Lemma roi_zero_iff_cost_zero_fails :
  ~ (forall inputs : CalculationInputs,
       roiPercentage (calculateROI inputs) == 0 <-> autonomousSOCAnnualCost inputs == 0).
Proof.
  intros H. destruct (H breakEvenInputs) as [Hroi _].
  assert (annualSavings (calculateROI breakEvenInputs) == 0) as S by reflexivity.
  assert (roiPercentage (calculateROI breakEvenInputs) == 0) as R by reflexivity.
  assert (autonomousSOCAnnualCost breakEvenInputs == 60000) as E by reflexivity.
  specialize (Hroi R). rewrite E in Hroi. discriminate Hroi.
Qed.

(** C2, amended. [calculateROI] returns a ROI of 0 when the autonomous
    annual cost (securityIncidentsPerMonth * pricePerSecurityIncident * 12)
    is 0; when that cost is not 0 the ROI is
    annualSavings / autonomousSOCAnnualCost * 100.  Hence the ROI is 0
    exactly when the cost is 0 or the annual savings are 0. *)
Theorem roiPercentage_guard (inputs : CalculationInputs) :
  autonomousSOCAnnualCost inputs ==
    securityIncidentsPerMonth inputs * pricePerSecurityIncident inputs * 12 /\
  autonomousSOCTotalCost (calculateROI inputs) = autonomousSOCAnnualCost inputs /\
  (autonomousSOCAnnualCost inputs == 0 -> roiPercentage (calculateROI inputs) == 0) /\
  (~ autonomousSOCAnnualCost inputs == 0 ->
   roiPercentage (calculateROI inputs) ==
   annualSavings (calculateROI inputs) / autonomousSOCAnnualCost inputs * 100) /\
  (roiPercentage (calculateROI inputs) == 0 <->
   autonomousSOCAnnualCost inputs == 0 \/ annualSavings (calculateROI inputs) == 0).
Proof.
  split; [reflexivity|]. split; [reflexivity|].
  split; [apply roi_zero_cost|]. split; [apply roi_nonzero_cost|].
  destruct (Qeq_dec (autonomousSOCAnnualCost inputs) 0) as [Z | NZ].
  - split; [now left | intros _; now apply roi_zero_cost].
  - rewrite (roi_nonzero_cost inputs NZ). split.
    + intros H. right.
      assert (annualSavings (calculateROI inputs) ==
              annualSavings (calculateROI inputs) / autonomousSOCAnnualCost inputs
              * autonomousSOCAnnualCost inputs) as E by (field; exact NZ).
      rewrite E.
      assert (annualSavings (calculateROI inputs) / autonomousSOCAnnualCost inputs == 0)
        as E0 by lra.
      rewrite E0. ring.
    + intros [Z | S]; [contradiction|]. rewrite S. field. exact NZ.
Qed.

Lemma roiPercentage_guard_witness :
  roiPercentage (calculateROI (defaultInputs.[Key.pricePerSecurityIncident <- 0])) == 0 /\
  roiPercentage (calculateROI defaultInputs) ==
  annualSavings (calculateROI defaultInputs) / autonomousSOCAnnualCost defaultInputs * 100.
Proof.
  split.
  - apply (proj1 (proj2 (proj2
      (roiPercentage_guard (defaultInputs.[Key.pricePerSecurityIncident <- 0]))))).
    reflexivity.
  - apply (proj1 (proj2 (proj2 (proj2 (roiPercentage_guard defaultInputs))))).
    intros H. discriminate H.
Defined.

(** ** Field derivation *)

(** The ratio [handleInputChange] computes from the default record. *)
Lemma default_ratio :
  securityIncidentsPerMonth defaultInputs / employeeCount defaultInputs == 4.8.
Proof. reflexivity. Qed.

(** C3. From a base configuration with employeeCount = 500,
    logVolumeIncidentRatio = 1.5, stellarXDRCostPerGB = 2 and
    legacySIEMPricePerGB = 3, as the default one has, the derived record has
    2400 incidents per month, 3 analysts, 1 manager, 1 engineer, 1 director,
    3600 GB of logs per month, platform costs of 86400 and licensing costs of
    129600; an [employeeCount] edit to 500 derives the same fields, and the
    employee-to-incident ratio it uses is the constant 2400/500. *)
Theorem default_configuration_derivation (base : Base.t) (prev : CalculationInputs) :
  Base.employeeCount base == 500 ->
  Base.logVolumeIncidentRatio base == 1.5 ->
  Base.stellarXDRCostPerGB base == 2 ->
  Base.legacySIEMPricePerGB base == 3 ->
  logVolumeIncidentRatio prev == 1.5 ->
  stellarXDRCostPerGB prev == 2 ->
  legacySIEMPricePerGB prev == 3 ->
  let derived (r : CalculationInputs) :=
    securityIncidentsPerMonth r == 2400 /\
    humanSOCAnalysts r == 3 /\
    humanSOCManager r == 1 /\
    humanSOCEngineer r == 1 /\
    humanSOCDirector r == 1 /\
    monthlyLogVolumeGB r == 3600 /\
    stellarXDRPlatformCosts r == 86400 /\
    siemLicensingCosts r == 129600 in
  derived (calculateComputedFields base) /\
  derived (handleInputChange prev Key.employeeCount 500) /\
  securityIncidentsPerMonth defaultInputs / employeeCount defaultInputs == 2400 / 500.
Proof.
  intros He Hr Hx Hl Pr Px Pl derived.
  assert (Math.round (Base.employeeCount base * (2400 / 500)) = 2400) as I.
  { rewrite (round_comp _ 2400) by (rewrite He; reflexivity). reflexivity. }
  assert (Math.round (2400 * Base.logVolumeIncidentRatio base) = 3600) as V.
  { rewrite (round_comp _ 3600) by (rewrite Hr; reflexivity). reflexivity. }
  assert (Math.round (2400 * logVolumeIncidentRatio prev) = 3600) as V'.
  { rewrite (round_comp _ 3600) by (rewrite Pr; reflexivity). reflexivity. }
  split; [|split; [|reflexivity]]; unfold derived.
  - unfold calculateComputedFields. cbv zeta. cbn [securityIncidentsPerMonth
      humanSOCAnalysts humanSOCManager humanSOCEngineer humanSOCDirector
      monthlyLogVolumeGB stellarXDRPlatformCosts siemLicensingCosts].
    rewrite I, V, Hx, Hl. repeat split; reflexivity.
  - destruct prev; cbn [logVolumeIncidentRatio stellarXDRCostPerGB legacySIEMPricePerGB] in *.
    unfold handleInputChange. cbn [assign logVolumeIncidentRatio stellarXDRCostPerGB
      legacySIEMPricePerGB securityIncidentsPerMonth
      humanSOCAnalysts humanSOCManager humanSOCEngineer humanSOCDirector
      monthlyLogVolumeGB stellarXDRPlatformCosts siemLicensingCosts].
    assert (Math.round (500 * (securityIncidentsPerMonth defaultInputs
                               / employeeCount defaultInputs)) = 2400) as I'
      by reflexivity.
    rewrite I', V', Px, Pl. repeat split; reflexivity.
Qed.

Lemma default_configuration_derivation_witness :
  securityIncidentsPerMonth (calculateComputedFields baseInputs) == 2400 /\
  siemLicensingCosts (handleInputChange defaultInputs Key.employeeCount 500) == 129600.
Proof.
  pose proof (default_configuration_derivation baseInputs defaultInputs) as H.
  cbv zeta in H.
  destruct H as [Hb [Hp _]]; try reflexivity.
  split; [apply Hb | apply Hp].
Defined.

(** What an [employeeCount] edit does to the incident count and what a
    [securityIncidentsPerMonth] edit does to the employee count. *)
Lemma employeeCount_edit_incidents (prev : CalculationInputs) (e : Q) :
  securityIncidentsPerMonth (handleInputChange prev Key.employeeCount e)
  = Math.round (e * 4.8).
Proof.
  destruct prev. unfold handleInputChange. cbn [assign securityIncidentsPerMonth].
  apply round_comp. rewrite default_ratio. reflexivity.
Qed.

Lemma incidents_edit_employeeCount (prev : CalculationInputs) (i : Q) :
  employeeCount (handleInputChange prev Key.securityIncidentsPerMonth i)
  = Math.round (i / 4.8).
Proof.
  destruct prev. unfold handleInputChange. cbn [assign employeeCount].
  apply round_comp. rewrite default_ratio. reflexivity.
Qed.

(** C4. For every record and every employeeCount > 0, an [employeeCount]
    edit sets securityIncidentsPerMonth to round(employeeCount * K) with
    K = 4.8, and a [securityIncidentsPerMonth] edit with the resulting count
    brings employeeCount back within rounding tolerance: to the very value
    when it is an integer, and in any case to less than one unit from it
    (at most 29/48 = 1/2 + 1/(2K)). *)
Theorem employee_incident_round_trip (prev : CalculationInputs) (e : Q) :
  0 < e ->
  let edited := handleInputChange prev Key.employeeCount e in
  let back :=
    handleInputChange edited Key.securityIncidentsPerMonth
      (securityIncidentsPerMonth edited) in
  securityIncidentsPerMonth edited == Math.round (e * 4.8) /\
  Qabs (employeeCount back - e) <= 29 # 48 /\
  Qabs (employeeCount back - e) < 1 /\
  (forall n : Z, e == inject_Z n -> employeeCount back == e).
Proof.
  intros _ edited back.
  assert (securityIncidentsPerMonth edited = Math.round (e * 4.8)) as Hi
    by apply employeeCount_edit_incidents.
  assert (employeeCount back = Math.round (Math.round (e * 4.8) / 4.8)) as Hb
    by (unfold back; rewrite incidents_edit_employeeCount, Hi; reflexivity).
  rewrite Hi, Hb. clear Hi Hb edited back.
  set (i := Math.round (e * 4.8)).
  pose proof (round_lower (e * 4.8)) as Il.
  pose proof (round_upper (e * 4.8)) as Iu.
  fold i in Il, Iu.
  assert (i / 4.8 == i * (5 # 24)) as D by (field; discriminate).
  assert (Math.round (i / 4.8) = Math.round (i * (5 # 24))) as R
    by (apply round_comp; exact D).
  rewrite R.
  pose proof (round_lower (i * (5 # 24))) as El.
  pose proof (round_upper (i * (5 # 24))) as Eu.
  split; [reflexivity|].
  assert (Qabs (Math.round (i * (5 # 24)) - e) <= 29 # 48) as B.
  { apply Qabs_Qle_condition. split; lra. }
  split; [exact B|]. split; [lra|].
  intros n En.
  rewrite (round_unique (i * (5 # 24)) n) by lra.
  symmetry. exact En.
Qed.

Lemma employee_incident_round_trip_witness :
  securityIncidentsPerMonth (handleInputChange defaultInputs Key.employeeCount 7) == 34 /\
  employeeCount
    (handleInputChange (handleInputChange defaultInputs Key.employeeCount 7)
       Key.securityIncidentsPerMonth
       (securityIncidentsPerMonth (handleInputChange defaultInputs Key.employeeCount 7)))
  == 7.
Proof.
  pose proof (employee_incident_round_trip defaultInputs 7) as H.
  cbv zeta in H. destruct H as [Hi [_ [_ Hn]]]; [reflexivity|].
  split.
  - rewrite Hi. reflexivity.
  - apply (Hn 7%Z). reflexivity.
Defined.

(** ** Bounds and monotonicity of the two improvements *)

Lemma efficiency_bounds (inputs : CalculationInputs) :
  0 <= falsePositiveRate inputs ->
  0 <= averageIncidentResponseTime inputs ->
  38 <= calculateEfficiencyImprovement inputs <= 80.
Proof.
  intros Hf Hr. unfold calculateEfficiencyImprovement, Math.min, Math.max.
  cbv zeta. split_min; lra.
Qed.

Lemma response_bounds (inputs : CalculationInputs) :
  0 <= falsePositiveRate inputs ->
  0 <= averageIncidentResponseTime inputs ->
  45 <= calculateIncidentResponseImprovement inputs <= 80.
Proof.
  intros Hf Hr. unfold calculateIncidentResponseImprovement, Math.min.
  cbv zeta. split_min; lra.
Qed.

(** The three component caps of the response improvement bound it without
    any assumption on the record. *)
Lemma response_cap (inputs : CalculationInputs) :
  calculateIncidentResponseImprovement inputs <= 68.
Proof.
  unfold calculateIncidentResponseImprovement, Math.min. cbv zeta.
  split_min; lra.
Qed.

Lemma efficiency_mono (inputs inputs' : CalculationInputs) :
  falsePositiveRate inputs <= falsePositiveRate inputs' ->
  averageIncidentResponseTime inputs <= averageIncidentResponseTime inputs' ->
  monthlyLogVolumeGB inputs <= monthlyLogVolumeGB inputs' ->
  calculateEfficiencyImprovement inputs <= calculateEfficiencyImprovement inputs'.
Proof.
  intros Hf Hr Hl. unfold calculateEfficiencyImprovement, Math.min, Math.max.
  cbv zeta. apply Q.min_le_compat_r.
  repeat apply Qplus_le_compat; try apply Qle_refl.
  - apply Q.min_le_compat_r. lra.
  - apply Q.min_le_compat_r. lra.
  - apply Q.min_le_compat_r.
    assert (Qmax 0 (monthlyLogVolumeGB inputs - 1024)
            <= Qmax 0 (monthlyLogVolumeGB inputs' - 1024)) as M
      by (apply Q.max_le_compat_l; lra).
    lra.
Qed.

Lemma response_mono (inputs inputs' : CalculationInputs) :
  falsePositiveRate inputs <= falsePositiveRate inputs' ->
  averageIncidentResponseTime inputs <= averageIncidentResponseTime inputs' ->
  calculateIncidentResponseImprovement inputs
  <= calculateIncidentResponseImprovement inputs'.
Proof.
  intros Hf Hr. unfold calculateIncidentResponseImprovement, Math.min. cbv zeta.
  apply Q.min_le_compat_r.
  repeat apply Qplus_le_compat; try apply Qle_refl; apply Q.min_le_compat_r; lra.
Qed.

(** C5. For a record with non-negative falsePositiveRate,
    averageIncidentResponseTime and monthlyLogVolumeGB, the efficiency
    improvement lies in [38, 80] and the incident-response improvement in
    [45, 80]; and raising any of the three fields, the others being as they
    were or raised too, lowers neither improvement. *)
Theorem improvements_bounded_monotone (inputs inputs' : CalculationInputs) :
  0 <= falsePositiveRate inputs ->
  0 <= averageIncidentResponseTime inputs ->
  0 <= monthlyLogVolumeGB inputs ->
  falsePositiveRate inputs <= falsePositiveRate inputs' ->
  averageIncidentResponseTime inputs <= averageIncidentResponseTime inputs' ->
  monthlyLogVolumeGB inputs <= monthlyLogVolumeGB inputs' ->
  38 <= efficiencyImprovement (calculateROI inputs) <= 80 /\
  45 <= incidentResponseImprovement (calculateROI inputs) <= 80 /\
  efficiencyImprovement (calculateROI inputs)
    <= efficiencyImprovement (calculateROI inputs') /\
  incidentResponseImprovement (calculateROI inputs)
    <= incidentResponseImprovement (calculateROI inputs').
Proof.
  intros Hf Hr Hl Mf Mr Ml.
  rewrite !efficiency_unfold, !response_unfold.
  split; [now apply efficiency_bounds|].
  split; [now apply response_bounds|].
  split; [now apply efficiency_mono | now apply response_mono].
Qed.

Lemma improvements_bounded_monotone_witness :
  38 <= efficiencyImprovement (calculateROI defaultInputs) <= 80 /\
  efficiencyImprovement (calculateROI defaultInputs)
    <= efficiencyImprovement
         (calculateROI (defaultInputs.[Key.monthlyLogVolumeGB <- 5000])).
Proof.
  pose proof (improvements_bounded_monotone defaultInputs
                (defaultInputs.[Key.monthlyLogVolumeGB <- 5000])) as H.
  destruct H as [Hb [_ [Hm _]]]; try (intros E; discriminate E).
  split; [exact Hb | exact Hm].
Defined.

(** C10. For a record with non-negative averageIncidentResponseTime and
    falsePositiveRate, the incident-response improvement never exceeds
    68 = 45 + 15 + 8, so that the overall cap of 80 is never reached. *)
Theorem incidentResponseImprovement_at_most_68 (inputs : CalculationInputs) :
  0 <= averageIncidentResponseTime inputs ->
  0 <= falsePositiveRate inputs ->
  incidentResponseImprovement (calculateROI inputs) <= 45 + 15 + 8 /\
  incidentResponseImprovement (calculateROI inputs) <= 68 /\
  incidentResponseImprovement (calculateROI inputs) < 80.
Proof.
  intros _ _. rewrite response_unfold.
  pose proof (response_cap inputs) as H.
  repeat split; lra.
Qed.

Lemma incidentResponseImprovement_at_most_68_witness :
  incidentResponseImprovement
    (calculateROI (defaultInputs.[Key.averageIncidentResponseTime <- 8])) <= 68.
Proof.
  apply (incidentResponseImprovement_at_most_68
           (defaultInputs.[Key.averageIncidentResponseTime <- 8]));
    intros E; discriminate E.
Defined.

(** ** Sorting and summing *)

Section SortFacts.

Context {A : Type} (compare : A -> A -> Q).

Lemma insert_perm (a : A) (l : list A) : Permutation (insert compare a l) (a :: l).
Proof.
  induction l as [|b l IH]; cbn [insert].
  - reflexivity.
  - destruct (Qle_bool (compare a b) 0).
    + reflexivity.
    + rewrite IH. apply perm_swap.
Qed.

Lemma sort_perm (l : list A) : Permutation (sort compare l) l.
Proof.
  induction l as [|a l IH]; cbn [sort fold_right].
  - reflexivity.
  - fold (sort compare l). rewrite insert_perm. now constructor.
Qed.

Lemma sort_Forall (P : A -> Prop) (l : list A) :
  Forall P l -> Forall P (sort compare l).
Proof. apply Permutation_Forall. symmetry. apply sort_perm. Qed.

End SortFacts.

Lemma fold_sum_shift (l : list Q) (a : Q) : fold_left Qplus l a == a + sum l.
Proof.
  unfold sum. revert a.
  induction l as [|x l IH]; intros a; cbn [fold_left].
  - ring.
  - rewrite (IH (a + x)), (IH (0 + x)). ring.
Qed.

Lemma sum_cons (x : Q) (l : list Q) : sum (x :: l) == x + sum l.
Proof. unfold sum at 1. cbn [fold_left]. rewrite fold_sum_shift. ring. Qed.

Lemma sum_perm (l l' : list Q) : Permutation l l' -> sum l == sum l'.
Proof.
  induction 1 as [| x l l' _ IH | x y l | l l' l'' _ IH1 _ IH2].
  - reflexivity.
  - rewrite !sum_cons, IH. reflexivity.
  - rewrite !sum_cons. ring.
  - now rewrite IH1.
Qed.

Lemma sum_shares (totalValue : Q) (l : list Q) :
  sum (map (percentageShare totalValue) l) == percentageShare totalValue (sum l).
Proof.
  unfold percentageShare.
  induction l as [|x l IH]; cbn [map].
  - unfold sum; cbn [fold_left]. unfold Qdiv. ring.
  - rewrite !sum_cons, IH. unfold Qdiv. ring.
Qed.

(** ** The value breakdown *)

Lemma Forall_nonnegativeValueb (l : list Category) :
  Forall nonnegativeValue l -> forallb nonnegativeValueb l = true.
Proof.
  intros H. apply forallb_forall. intros c Hc.
  apply Qle_bool_iff. rewrite Forall_forall in H. now apply H.
Qed.

Lemma defaults_nonnegative (fp : Q) :
  0 <= fp -> nonnegativeInputs (defaultInputs.[Key.falsePositiveRate <- fp]).
Proof.
  intros H. unfold nonnegativeInputs. cbn.
  repeat split; try exact H; intros E; discriminate E.
Qed.

(** C6, as stated, fails in both versions of the component: with the
    default record and a false-positive rate of 0, the false-positive
    reduction is negative (the current false positives, none, minus the 5
    percent that remain). *)
Lemma breakdown_nonnegative_fails :
  ~ (forall inputs : CalculationInputs,
       nonnegativeInputs inputs ->
       0 <= falsePositiveRate inputs <= 100 ->
       Forall nonnegativeValue (computeValueBreakdown inputs)) /\
  ~ (forall inputs : CalculationInputs,
       nonnegativeInputs inputs ->
       0 <= falsePositiveRate inputs <= 100 ->
       Forall nonnegativeValue (computeValueBreakdownGenuine inputs)).
Proof.
  assert (0 <= falsePositiveRate (defaultInputs.[Key.falsePositiveRate <- 0]) <= 100)
    as R by (split; intros E; discriminate E).
  split; intros H;
    specialize (H (defaultInputs.[Key.falsePositiveRate <- 0])
                  (defaults_nonnegative 0 (Qle_refl 0)) R);
    apply Forall_nonnegativeValueb in H; vm_compute in H; discriminate H.
Qed.

(** The false-positive reduction is the only contribution that can be
    negative: it is, as soon as there are incidents and the rate is below
    the 5 percent assumed to remain. *)
Lemma falsePositiveReduction_factored (inputs : Props.inputs) :
  ValueAnalysis.falsePositiveReduction (ValueAnalysis.calculateValueMetrics inputs) ==
  Props.securityIncidentsPerMonth inputs * (Props.falsePositiveRate inputs - 5)
  * (51 # 52) * 10.
Proof. cbn. field. Qed.

Lemma falsePositiveReduction_same (inputs : Props.inputs) :
  ValueAnalysisGenuine.falsePositiveReduction
    (ValueAnalysisGenuine.calculateValueMetrics inputs)
  = ValueAnalysis.falsePositiveReduction (ValueAnalysis.calculateValueMetrics inputs).
Proof. reflexivity. Qed.

Section BreakdownNonnegative.

Variable inputs : CalculationInputs.
Hypothesis fields : nonnegativeInputs inputs.
Hypothesis rate : 5 <= falsePositiveRate inputs <= 100.

Let props := valueAnalysisProps inputs (calculateROI inputs).

Lemma falsePositiveReduction_nonnegative :
  0 <= ValueAnalysis.falsePositiveReduction
         (ValueAnalysis.calculateValueMetrics (Props.inputs_ props)).
Proof.
  rewrite falsePositiveReduction_factored. subst props. cbn.
  destruct fields as (_ & Hsi & _).
  nonnegative_product.
Qed.

Lemma breakdown_values_nonnegative :
  Forall nonnegativeValue (ValueAnalysis.valueCategories props).
Proof.
  pose proof falsePositiveReduction_nonnegative as F.
  destruct fields as (Hec & Hsi & Hrt & Hfp & _ & Han & _).
  unfold ValueAnalysis.valueCategories. apply sort_Forall.
  repeat (apply Forall_cons; [unfold nonnegativeValue; cbn [value] |]);
    [exact F | .. | apply Forall_nil];
    subst props; cbn; nonnegative_product.
Qed.

Lemma breakdown_genuine_values_nonnegative :
  Forall nonnegativeValue (ValueAnalysisGenuine.valueCategories props).
Proof.
  pose proof falsePositiveReduction_nonnegative as F.
  rewrite <- falsePositiveReduction_same in F.
  destruct fields as (Hec & Hsi & Hrt & Hfp & _ & Han & _).
  unfold ValueAnalysisGenuine.valueCategories. apply sort_Forall.
  repeat (apply Forall_cons; [unfold nonnegativeValue; cbn [value] |]);
    [exact F | .. | apply Forall_nil];
    subst props; cbn;
    try apply (Qplus_le_compat 0 _ 0 _); nonnegative_product.
Qed.

End BreakdownNonnegative.

(** C6, amended. For every record whose numeric fields are non-negative,
    with falsePositiveRate in [5, 100], every entry of the value-category
    breakdown has a non-negative value, in both versions of the
    component. *)
Theorem breakdown_nonnegative (inputs : CalculationInputs) :
  nonnegativeInputs inputs ->
  5 <= falsePositiveRate inputs <= 100 ->
  Forall nonnegativeValue (computeValueBreakdown inputs) /\
  Forall nonnegativeValue (computeValueBreakdownGenuine inputs).
Proof.
  intros fields rate. split.
  - now apply breakdown_values_nonnegative.
  - now apply breakdown_genuine_values_nonnegative.
Qed.

Lemma breakdown_nonnegative_witness :
  Forall nonnegativeValue (computeValueBreakdown defaultInputs) /\
  Forall nonnegativeValue (computeValueBreakdownGenuine defaultInputs).
Proof.
  apply (breakdown_nonnegative defaultInputs).
  - apply (defaults_nonnegative 90). intros E; discriminate E.
  - split; intros E; discriminate E.
Defined.

(** Below 5 percent the false-positive reduction of a record with incidents
    is negative. *)
Lemma falsePositiveReduction_negative (inputs : Props.inputs) :
  0 < Props.securityIncidentsPerMonth inputs ->
  Props.falsePositiveRate inputs < 5 ->
  ValueAnalysis.falsePositiveReduction (ValueAnalysis.calculateValueMetrics inputs) < 0.
Proof.
  intros Hsi Hfp. rewrite falsePositiveReduction_factored.
  assert (0 < Props.securityIncidentsPerMonth inputs * (5 - Props.falsePositiveRate inputs))
    as P by (apply Qmult_lt_0_compat; lra).
  lra.
Qed.

(** ** Frame of a [stellarXDRCostPerGB] edit *)

(** C7. For every record and every new value v, a [stellarXDRCostPerGB]
    edit sets stellarXDRCostPerGB to v and stellarXDRPlatformCosts to
    monthlyLogVolumeGB * v * 12, and leaves every other field as it was, in
    particular monthlyLogVolumeGB and siemLicensingCosts. *)
Theorem stellarXDRCostPerGB_edit_frame (prev : CalculationInputs) (v : Q) :
  let next := handleInputChange prev Key.stellarXDRCostPerGB v in
  stellarXDRCostPerGB next = v /\
  stellarXDRPlatformCosts next = monthlyLogVolumeGB prev * v * 12 /\
  monthlyLogVolumeGB next = monthlyLogVolumeGB prev /\
  siemLicensingCosts next = siemLicensingCosts prev /\
  employeeCount next = employeeCount prev /\
  securityIncidentsPerMonth next = securityIncidentsPerMonth prev /\
  averageIncidentResponseTime next = averageIncidentResponseTime prev /\
  falsePositiveRate next = falsePositiveRate prev /\
  pricePerSecurityIncident next = pricePerSecurityIncident prev /\
  humanSOCAnalysts next = humanSOCAnalysts prev /\
  humanSOCManager next = humanSOCManager prev /\
  humanSOCEngineer next = humanSOCEngineer prev /\
  humanSOCDirector next = humanSOCDirector prev /\
  legacySIEMPricePerGB next = legacySIEMPricePerGB prev /\
  switchFromLegacySIEM next = switchFromLegacySIEM prev /\
  logVolumeIncidentRatio next = logVolumeIncidentRatio prev.
Proof. destruct prev. cbv zeta. cbn. repeat split. Qed.

(** ** Percentage shares *)

Lemma share_of_total (totalValue : Q) :
  0 < totalValue -> percentageShare totalValue totalValue == 100.
Proof. intros H. unfold percentageShare. field. lra. Qed.

Lemma shares_sum (totalValue : Q) (categories : list Category) :
  0 < totalValue ->
  sum (map value categories) == totalValue ->
  sum (map (fun c => percentageShare totalValue (value c)) categories) == 100.
Proof.
  intros H E.
  rewrite <- (map_map value (percentageShare totalValue)).
  rewrite sum_shares.
  unfold percentageShare. rewrite E. now apply share_of_total.
Qed.

Lemma categories_total (props : Props.t) :
  sum (map value (ValueAnalysis.valueCategories props)) == ValueAnalysis.totalValue props.
Proof.
  unfold ValueAnalysis.valueCategories, ValueAnalysis.totalValue.
  rewrite (sum_perm _ _ (Permutation_map value (sort_perm _ _))). reflexivity.
Qed.

Lemma categories_genuine_total (props : Props.t) :
  sum (map value (ValueAnalysisGenuine.valueCategories props))
  == ValueAnalysisGenuine.totalValue props.
Proof.
  unfold ValueAnalysisGenuine.valueCategories, ValueAnalysisGenuine.totalValue.
  rewrite (sum_perm _ _ (Permutation_map value (sort_perm _ _))). reflexivity.
Qed.

(** C8. For every record whose value breakdown has a total value above 0,
    the percentage shares value / totalValue * 100 of the categories sum to
    100, in exact arithmetic and in both versions of the component. *)
Theorem percentage_shares_sum_to_100 (inputs : CalculationInputs) :
  let props := valueAnalysisProps inputs (calculateROI inputs) in
  (0 < ValueAnalysis.totalValue props ->
   sum (map (fun c => ValueAnalysis.formatPercentage props (value c))
          (ValueAnalysis.valueCategories props)) == 100) /\
  (0 < ValueAnalysisGenuine.totalValue props ->
   sum (map (fun c => ValueAnalysisGenuine.formatPercentage props (value c))
          (ValueAnalysisGenuine.valueCategories props)) == 100).
Proof.
  intros props. split; intros H.
  - apply shares_sum; [exact H | apply categories_total].
  - apply shares_sum; [exact H | apply categories_genuine_total].
Qed.

Lemma percentage_shares_sum_to_100_witness :
  sum (map (fun c => ValueAnalysis.formatPercentage
                       (valueAnalysisProps defaultInputs (calculateROI defaultInputs))
                       (value c))
         (computeValueBreakdown defaultInputs)) == 100 /\
  sum (map (fun c => ValueAnalysisGenuine.formatPercentage
                       (valueAnalysisProps defaultInputs (calculateROI defaultInputs))
                       (value c))
         (computeValueBreakdownGenuine defaultInputs)) == 100.
Proof.
  pose proof (percentage_shares_sum_to_100 defaultInputs) as H. cbv zeta in H.
  destruct H as [H1 H2].
  split; [apply H1 | apply H2]; vm_compute; reflexivity.
Defined.

(** ** The reserved flag *)

Lemma equalExceptSwitch_assign (a b : CalculationInputs) :
  equalExceptSwitch a b -> b = a.[Key.switchFromLegacySIEM <- switchFromLegacySIEM b].
Proof.
  destruct a, b. unfold equalExceptSwitch. cbn.
  intros (-> & -> & -> & -> & -> & -> & -> & -> & -> & -> & -> & -> & -> & -> & ->).
  reflexivity.
Qed.

Lemma calculateROI_ignores_switch (inputs : CalculationInputs) (flag : bool) :
  calculateROI (inputs.[Key.switchFromLegacySIEM <- flag]) = calculateROI inputs.
Proof. destruct inputs. reflexivity. Qed.

Lemma props_ignore_switch (inputs : CalculationInputs) (flag : bool)
  (results : CalculationResults) :
  valueAnalysisProps (inputs.[Key.switchFromLegacySIEM <- flag]) results
  = valueAnalysisProps inputs results.
Proof. destruct inputs. reflexivity. Qed.

(** C9. Two records that are equal in all fields except
    switchFromLegacySIEM have the same results and the same value-category
    breakdown, in both versions of the component: the flag influences no
    computed output. *)
Theorem switchFromLegacySIEM_noninterference (a b : CalculationInputs) :
  equalExceptSwitch a b ->
  calculateROI a = calculateROI b /\
  computeValueBreakdown a = computeValueBreakdown b /\
  computeValueBreakdownGenuine a = computeValueBreakdownGenuine b.
Proof.
  intros H. rewrite (equalExceptSwitch_assign a b H).
  unfold computeValueBreakdown, computeValueBreakdownGenuine.
  rewrite calculateROI_ignores_switch, props_ignore_switch.
  repeat split.
Qed.

Lemma switchFromLegacySIEM_noninterference_witness :
  calculateROI defaultInputs
  = calculateROI (defaultInputs.[Key.switchFromLegacySIEM <- false]) /\
  computeValueBreakdown defaultInputs
  = computeValueBreakdown (defaultInputs.[Key.switchFromLegacySIEM <- false]).
Proof.
  pose proof (switchFromLegacySIEM_noninterference defaultInputs
                (defaultInputs.[Key.switchFromLegacySIEM <- false])) as H.
  destruct H as [H1 [H2 _]].
  - unfold equalExceptSwitch. cbn. repeat split.
  - split; [exact H1 | exact H2].
Defined.

(** * Further properties of the field derivation *)

Lemma round_nonnegative (x : Q) : 0 <= x -> 0 <= Math.round x.
Proof.
  intros H. unfold Math.round.
  change 0 with (inject_Z 0). rewrite <- Zle_Qle.
  rewrite <- (Qfloor_Z 0). apply Qfloor_resp_le. change (inject_Z 0) with 0. lra.
Qed.

Lemma ceil_nonnegative (x : Q) : 0 <= x -> 0 <= Math.ceil x.
Proof.
  intros H. unfold Math.ceil.
  change 0 with (inject_Z 0). rewrite <- Zle_Qle.
  rewrite <- (Qceiling_Z 0). apply Qceiling_resp_le. exact H.
Qed.

Lemma round_monotone (x y : Q) : x <= y -> Math.round x <= Math.round y.
Proof.
  intros H. unfold Math.round. rewrite <- Zle_Qle. apply Qfloor_resp_le. lra.
Qed.

Lemma ceil_monotone (x y : Q) : x <= y -> Math.ceil x <= Math.ceil y.
Proof.
  intros H. unfold Math.ceil. rewrite <- Zle_Qle. now apply Qceiling_resp_le.
Qed.

Lemma ceil_leastCover (incidents perPerson : Q) :
  0 < perPerson -> leastCover (Math.ceil (incidents / perPerson)) incidents perPerson.
Proof.
  intros Hd. unfold leastCover, Math.ceil.
  split; [eexists; reflexivity|].
  pose proof (Qle_ceiling (incidents / perPerson)) as Hle.
  pose proof (Qceiling_lt (incidents / perPerson)) as Hlt.
  unfold Z.sub in Hlt. rewrite inject_Z_plus in Hlt.
  change (inject_Z (- (1))) with (-1) in Hlt.
  set (h := inject_Z (Qceiling (incidents / perPerson))) in *.
  assert (incidents == incidents / perPerson * perPerson) as E by (field; lra).
  split.
  - rewrite E at 1. apply Qmult_le_compat_r; lra.
  - rewrite E at 1. apply Qmult_lt_compat_r; lra.
Qed.

Lemma driving_ratio_mult (x : Q) :
  x * (securityIncidentsPerMonth defaultInputs / employeeCount defaultInputs)
  == x * 4.8.
Proof. rewrite default_ratio. reflexivity. Qed.

Lemma driving_ratio_div (x : Q) :
  x / (securityIncidentsPerMonth defaultInputs / employeeCount defaultInputs)
  == x * (5 # 24).
Proof. rewrite default_ratio. field. Qed.

(** X1. Staffing after a driving edit: every headcount is the least whole
    number of people that covers the incident count of the record, at 1000
    incidents per analyst, 3000 per manager and per engineer and 6000 per
    director; the record computed from stored base fields is staffed the
    same way. *)
Theorem staffing_least_cover (prev : CalculationInputs) (base : Base.t)
  (field : Key.t) (value : Key.value field) :
  isDrivingKey field = true ->
  let staffed (r : CalculationInputs) :=
    leastCover (humanSOCAnalysts r) (securityIncidentsPerMonth r) 1000 /\
    leastCover (humanSOCManager r) (securityIncidentsPerMonth r) 3000 /\
    leastCover (humanSOCEngineer r) (securityIncidentsPerMonth r) 3000 /\
    leastCover (humanSOCDirector r) (securityIncidentsPerMonth r) 6000 in
  staffed (handleInputChange prev field value) /\
  staffed (calculateComputedFields base).
Proof.
  intros D staffed. split.
  - destruct field; try discriminate D; destruct prev; unfold staffed;
      cbn [handleInputChange assign humanSOCAnalysts humanSOCManager
           humanSOCEngineer humanSOCDirector securityIncidentsPerMonth];
      repeat split; apply ceil_leastCover; reflexivity.
  - unfold staffed, calculateComputedFields.
    cbn [humanSOCAnalysts humanSOCManager humanSOCEngineer humanSOCDirector
         securityIncidentsPerMonth].
    repeat split; apply ceil_leastCover; reflexivity.
Qed.

Lemma staffing_least_cover_witness :
  leastCover (humanSOCAnalysts (handleInputChange defaultInputs Key.employeeCount 700))
    (securityIncidentsPerMonth (handleInputChange defaultInputs Key.employeeCount 700))
    1000.
Proof.
  pose proof (staffing_least_cover defaultInputs baseInputs Key.employeeCount 700) as H.
  cbv zeta in H. destruct H as [[H _] _]; [reflexivity | exact H].
Defined.

Lemma ceil_div_antitone (i d d' : Q) :
  0 <= i -> 0 < d -> d <= d' -> Math.ceil (i / d') <= Math.ceil (i / d).
Proof.
  intros Hi Hd Hdd. apply ceil_monotone.
  apply Qle_shift_div_r; [lra|].
  assert (0 <= i / d) as P by (apply Qle_shift_div_l; lra).
  assert (i == i / d * d) as E by (field; lra).
  set (q := i / d) in *. clearbody q.
  assert (0 <= q * (d' - d)) as M by (apply Qmult_le_0_compat; lra).
  lra.
Qed.

Lemma staff_order (i : Q) :
  0 <= i ->
  Math.ceil (i / 6000) <= Math.ceil (i / 3000) /\
  Math.ceil (i / 3000) <= Math.ceil (i / 1000).
Proof. intros H. split; apply ceil_div_antitone; lra. Qed.

(** The incident count a driving edit leaves in the record is not negative
    when the value entered is not. *)
Lemma driving_incidents_nonnegative (prev : CalculationInputs) (field : Key.t)
  (value : Key.value field) :
  isDrivingKey field = true -> nonnegativeEdit field value ->
  0 <= securityIncidentsPerMonth (handleInputChange prev field value).
Proof.
  intros D V. destruct field; try discriminate D; destruct prev;
    cbn [handleInputChange assign securityIncidentsPerMonth]; cbn in V.
  - apply round_nonnegative. rewrite driving_ratio_mult. lra.
  - exact V.
Qed.

(** X2. The staffing pyramid: after a driving edit with a non-negative value
    there are as many engineers as managers, no more directors than
    managers and no more managers than analysts. *)
Theorem staffing_pyramid (prev : CalculationInputs) (field : Key.t)
  (value : Key.value field) :
  isDrivingKey field = true ->
  nonnegativeEdit field value ->
  let r := handleInputChange prev field value in
  humanSOCEngineer r = humanSOCManager r /\
  humanSOCDirector r <= humanSOCManager r /\
  humanSOCManager r <= humanSOCAnalysts r.
Proof.
  intros D V r.
  pose proof (driving_incidents_nonnegative prev field value D V) as I.
  fold r in I. subst r.
  destruct field; try discriminate D; destruct prev;
    cbn [handleInputChange assign humanSOCAnalysts humanSOCManager
         humanSOCEngineer humanSOCDirector securityIncidentsPerMonth] in *;
    (split; [reflexivity | now apply staff_order]).
Qed.

Lemma staffing_pyramid_witness :
  humanSOCDirector (handleInputChange defaultInputs Key.securityIncidentsPerMonth 7000)
  <= humanSOCManager (handleInputChange defaultInputs Key.securityIncidentsPerMonth 7000).
Proof.
  pose proof (staffing_pyramid defaultInputs Key.securityIncidentsPerMonth 7000) as H.
  cbv zeta in H. destruct H as [_ [H _]].
  - reflexivity.
  - intros E; discriminate E.
  - exact H.
Defined.

(** X3. Non-negativity is kept: an edit of any key with a non-negative value
    turns a record of non-negative fields into one. *)
Theorem edits_keep_nonnegative (prev : CalculationInputs) (field : Key.t)
  (value : Key.value field) :
  nonnegativeInputs prev ->
  nonnegativeEdit field value ->
  nonnegativeInputs (handleInputChange prev field value).
Proof.
  intros P V. destruct prev. unfold nonnegativeInputs in *. cbn in P.
  destruct P as (Pec & Psi & Prt & Pfp & Ppp & Pan & Pmg & Pen & Pdi & Plp & Psc
                 & Plr & Plv & Psx & Psl).
  assert (forall x, 0 <= x ->
            0 <= x * (securityIncidentsPerMonth defaultInputs
                      / employeeCount defaultInputs)) as Rm
    by (intros x Hx; rewrite driving_ratio_mult; lra).
  assert (forall x, 0 <= x ->
            0 <= x / (securityIncidentsPerMonth defaultInputs
                      / employeeCount defaultInputs)) as Rd
    by (intros x Hx; rewrite driving_ratio_div; lra).
  assert (forall x d, 0 <= x -> 0 < d -> 0 <= Math.ceil (x / d)) as C
    by (intros x d Hx Hd; apply ceil_nonnegative, Qle_shift_div_l; lra).
  destruct field; cbn in V;
    cbn [handleInputChange assign employeeCount securityIncidentsPerMonth
         averageIncidentResponseTime falsePositiveRate pricePerSecurityIncident
         humanSOCAnalysts humanSOCManager humanSOCEngineer humanSOCDirector
         legacySIEMPricePerGB stellarXDRCostPerGB logVolumeIncidentRatio
         monthlyLogVolumeGB stellarXDRPlatformCosts siemLicensingCosts];
    repeat match goal with |- _ /\ _ => split end;
    try assumption;
    repeat match goal with
    | |- 0 <= Math.round _ => apply round_nonnegative
    | |- 0 <= Math.ceil (_ / _) => apply C
    | |- 0 <= _ * (securityIncidentsPerMonth defaultInputs / _) => apply Rm
    | |- 0 <= _ / (securityIncidentsPerMonth defaultInputs / _) => apply Rd
    | |- 0 <= _ * _ => apply Qmult_le_0_compat
    | |- 0 < _ => reflexivity
    | |- 0 <= 12 => discriminate
    end;
    assumption.
Qed.

Lemma edits_keep_nonnegative_witness :
  nonnegativeInputs (handleInputChange defaultInputs Key.logVolumeIncidentRatio 2.5).
Proof.
  apply (edits_keep_nonnegative defaultInputs Key.logVolumeIncidentRatio 2.5).
  - apply (defaults_nonnegative 90). intros E; discriminate E.
  - intros E; discriminate E.
Defined.

(** X4. The platform costs stay current: an edit of a key other than the log
    volume and the two cost fields leaves both annual costs equal to
    log volume * price per GB * 12, when they were so before or when the key
    is one that recomputes them (employee count, incident count, log volume
    ratio). *)
Theorem costs_stay_current (prev : CalculationInputs) (field : Key.t)
  (value : Key.value field) :
  isVolumeOrCostKey field = false ->
  isCascadeKey field = true \/ costsCurrent prev ->
  costsCurrent (handleInputChange prev field value).
Proof.
  intros K H. destruct prev. unfold costsCurrent in *.
  destruct field; try discriminate K;
    cbn [handleInputChange assign monthlyLogVolumeGB stellarXDRCostPerGB
         legacySIEMPricePerGB stellarXDRPlatformCosts siemLicensingCosts] in *;
    try (split; reflexivity);
    (destruct H as [H | [H1 H2]]; [discriminate H|]);
    split; first [reflexivity | assumption].
Qed.

Lemma costs_stay_current_witness :
  costsCurrent (handleInputChange defaultInputs Key.stellarXDRCostPerGB 4) /\
  costsCurrent (handleInputChange breakEvenInputs Key.employeeCount 100).
Proof.
  split.
  - apply (costs_stay_current defaultInputs Key.stellarXDRCostPerGB 4).
    + reflexivity.
    + right. split; reflexivity.
  - apply (costs_stay_current breakEvenInputs Key.employeeCount 100).
    + reflexivity.
    + left. reflexivity.
Defined.

(** X5. A direct edit of the log volume recomputes neither cost: when the costs
    were current, a price is not zero and the volume really changes, they
    are stale afterwards. *)
Theorem volume_override_leaves_costs_stale (prev : CalculationInputs) (v : Q) :
  costsCurrent prev ->
  ~ v == monthlyLogVolumeGB prev ->
  ~ stellarXDRCostPerGB prev == 0 \/ ~ legacySIEMPricePerGB prev == 0 ->
  let next := handleInputChange prev Key.monthlyLogVolumeGB v in
  stellarXDRPlatformCosts next = stellarXDRPlatformCosts prev /\
  siemLicensingCosts next = siemLicensingCosts prev /\
  ~ costsCurrent next.
Proof.
  intros [C1 C2] V P next. subst next. destruct prev. unfold costsCurrent.
  cbn [handleInputChange assign monthlyLogVolumeGB stellarXDRCostPerGB
       legacySIEMPricePerGB stellarXDRPlatformCosts siemLicensingCosts] in *.
  split; [reflexivity|]. split; [reflexivity|].
  intros [S1 S2]. rewrite C1 in S1. rewrite C2 in S2.
  assert (forall price old, old * price * 12 == v * price * 12 ->
                            ~ price == 0 -> v == old) as Cancel.
  { intros price old E NZ.
    assert ((old - v) * price == 0) as Z by lra.
    apply Qmult_integral in Z. destruct Z as [Z | Z]; [lra | contradiction]. }
  destruct P as [P | P]; apply V.
  - exact (Cancel _ _ S1 P).
  - exact (Cancel _ _ S2 P).
Qed.

Lemma volume_override_leaves_costs_stale_witness :
  ~ costsCurrent (handleInputChange defaultInputs Key.monthlyLogVolumeGB 5000).
Proof.
  pose proof (volume_override_leaves_costs_stale defaultInputs 5000) as H.
  cbv zeta in H. destruct H as [_ [_ H]].
  - split; reflexivity.
  - intros E; discriminate E.
  - left. intros E; discriminate E.
  - exact H.
Defined.

(** X6. The last driving edit wins: after an edit of the employee count or of
    the incident count, a further edit of either gives the record it would
    have given without the first. *)
Theorem driving_edit_absorbs (prev : CalculationInputs)
  (first : Key.t) (v : Key.value first) (second : Key.t) (w : Key.value second) :
  isDrivingKey first = true ->
  isDrivingKey second = true ->
  handleInputChange (handleInputChange prev first v) second w
  = handleInputChange prev second w.
Proof.
  intros D1 D2. destruct prev.
  destruct first; try discriminate D1; destruct second; try discriminate D2;
    reflexivity.
Qed.

Lemma driving_edit_absorbs_witness :
  handleInputChange (handleInputChange defaultInputs Key.securityIncidentsPerMonth 35)
    Key.employeeCount 700
  = handleInputChange defaultInputs Key.employeeCount 700.
Proof.
  apply (driving_edit_absorbs defaultInputs Key.securityIncidentsPerMonth 35
           Key.employeeCount 700); reflexivity.
Defined.

(** The two price edits commute, and each is idempotent. *)
Theorem price_edits_commute (prev : CalculationInputs) (a b : Q) :
  handleInputChange (handleInputChange prev Key.stellarXDRCostPerGB a)
    Key.legacySIEMPricePerGB b
  = handleInputChange (handleInputChange prev Key.legacySIEMPricePerGB b)
      Key.stellarXDRCostPerGB a /\
  handleInputChange (handleInputChange prev Key.stellarXDRCostPerGB a)
    Key.stellarXDRCostPerGB a
  = handleInputChange prev Key.stellarXDRCostPerGB a /\
  handleInputChange (handleInputChange prev Key.legacySIEMPricePerGB b)
    Key.legacySIEMPricePerGB b
  = handleInputChange prev Key.legacySIEMPricePerGB b.
Proof. destruct prev. repeat split. Qed.

(** X7. More employees never mean fewer incidents, fewer staff, less log
    volume or lower platform costs, the log volume ratio and the prices
    being non-negative. *)
Theorem employeeCount_edit_monotone (prev : CalculationInputs) (e e' : Q) :
  e <= e' ->
  0 <= logVolumeIncidentRatio prev ->
  0 <= stellarXDRCostPerGB prev ->
  0 <= legacySIEMPricePerGB prev ->
  let r := handleInputChange prev Key.employeeCount e in
  let r' := handleInputChange prev Key.employeeCount e' in
  securityIncidentsPerMonth r <= securityIncidentsPerMonth r' /\
  humanSOCAnalysts r <= humanSOCAnalysts r' /\
  humanSOCManager r <= humanSOCManager r' /\
  humanSOCEngineer r <= humanSOCEngineer r' /\
  humanSOCDirector r <= humanSOCDirector r' /\
  monthlyLogVolumeGB r <= monthlyLogVolumeGB r' /\
  stellarXDRPlatformCosts r <= stellarXDRPlatformCosts r' /\
  siemLicensingCosts r <= siemLicensingCosts r'.
Proof.
  intros E Hr Hx Hl r r'. subst r r'. destruct prev.
  cbn [handleInputChange assign securityIncidentsPerMonth humanSOCAnalysts
       humanSOCManager humanSOCEngineer humanSOCDirector monthlyLogVolumeGB
       stellarXDRPlatformCosts siemLicensingCosts logVolumeIncidentRatio
       stellarXDRCostPerGB legacySIEMPricePerGB] in *.
  set (K := securityIncidentsPerMonth defaultInputs / employeeCount defaultInputs).
  assert (Math.round (e * K) <= Math.round (e' * K)) as I.
  { apply round_monotone. unfold K. rewrite !driving_ratio_mult. lra. }
  assert (forall d, 0 < d ->
            Math.ceil (Math.round (e * K) / d) <= Math.ceil (Math.round (e' * K) / d))
    as S.
  { intros d Hd. apply ceil_monotone.
    unfold Qdiv. apply Qmult_le_compat_r; [exact I|].
    apply Qinv_le_0_compat. lra. }
  assert (Math.round (Math.round (e * K) * logVolumeIncidentRatio0)
          <= Math.round (Math.round (e' * K) * logVolumeIncidentRatio0)) as V.
  { apply round_monotone. now apply Qmult_le_compat_r. }
  split; [exact I|].
  repeat (split; [apply S; reflexivity|]).
  split; [exact V|].
  split; (apply Qmult_le_compat_r; [apply Qmult_le_compat_r; assumption | lra]).
Qed.

Lemma employeeCount_edit_monotone_witness :
  monthlyLogVolumeGB (handleInputChange defaultInputs Key.employeeCount 100)
  <= monthlyLogVolumeGB (handleInputChange defaultInputs Key.employeeCount 900).
Proof.
  assert (100 <= 900) as E by (intros C; discriminate C).
  assert (0 <= logVolumeIncidentRatio defaultInputs) as Hr
    by (intros C; discriminate C).
  assert (0 <= stellarXDRCostPerGB defaultInputs) as Hx
    by (intros C; discriminate C).
  assert (0 <= legacySIEMPricePerGB defaultInputs) as Hl
    by (intros C; discriminate C).
  pose proof (employeeCount_edit_monotone defaultInputs 100 900 E Hr Hx Hl) as H.
  cbv zeta in H. exact (proj1 (proj2 (proj2 (proj2 (proj2 (proj2 H)))))).
Defined.

(** * Persistence *)



(** X9. A reload drops the overrides of derived fields: after a direct edit of a
    headcount, of the log volume or of a platform cost, the reloaded record
    is the one from before the edit. *)
Theorem reload_drops_overrides (base : Base.t) (field : Key.t)
  (value : Key.value field) :
  isBaseKey field = false ->
  isDrivingKey field = false ->
  reload (handleInputChange (calculateComputedFields base) field value)
  = calculateComputedFields base.
Proof.
  intros B D. destruct base.
  destruct field; try discriminate B; try discriminate D; reflexivity.
Qed.

Lemma reload_drops_overrides_witness :
  reload (handleInputChange defaultInputs Key.humanSOCAnalysts 12) = defaultInputs.
Proof.
  apply (reload_drops_overrides baseInputs Key.humanSOCAnalysts 12); reflexivity.
Defined.

(** X10. A reload after an edit of the incident count keeps the employee count
    the edit derived, round(incidents / 4.8), and recomputes the incident
    count from it: the reloaded count is within 2.9 of the one entered, and
    is the one entered when that is round(4.8 * n) for a whole number n. *)
Theorem reload_after_incident_edit (prev : CalculationInputs) (incidents : Q) :
  let next := handleInputChange prev Key.securityIncidentsPerMonth incidents in
  employeeCount (reload next) = employeeCount next /\
  employeeCount next = Math.round (incidents / 4.8) /\
  securityIncidentsPerMonth (reload next) = Math.round (employeeCount next * 4.8) /\
  Qabs (securityIncidentsPerMonth (reload next) - incidents) <= 2.9 /\
  (forall n : Z, incidents = Math.round (inject_Z n * 4.8) ->
                 securityIncidentsPerMonth (reload next) = incidents).
Proof.
  intros next.
  assert (employeeCount next = Math.round (incidents / 4.8)) as He
    by apply incidents_edit_employeeCount.
  assert (securityIncidentsPerMonth (reload next)
          = Math.round (employeeCount next * 4.8)) as Hs.
  { transitivity (Math.round (employeeCount next * (2400 / 500))).
    - subst next. destruct prev. reflexivity.
    - apply round_comp. apply Qmult_comp; reflexivity. }
  split; [subst next; destruct prev; reflexivity|].
  split; [exact He|]. split; [exact Hs|].
  rewrite Hs, He.
  assert (incidents / 4.8 == incidents * (5 # 24)) as D by (field; discriminate).
  rewrite (round_comp _ _ D).
  pose proof (round_lower (incidents * (5 # 24))) as El.
  pose proof (round_upper (incidents * (5 # 24))) as Eu.
  set (e := Math.round (incidents * (5 # 24))) in *.
  pose proof (round_lower (e * 4.8)) as Il.
  pose proof (round_upper (e * 4.8)) as Iu.
  split.
  - apply Qabs_Qle_condition. split; lra.
  - intros n Hn. subst e.
    pose proof (round_lower (inject_Z n * 4.8)) as Nl.
    pose proof (round_upper (inject_Z n * 4.8)) as Nu.
    rewrite <- Hn in Nl, Nu.
    rewrite (round_unique (incidents * (5 # 24)) n) by lra.
    symmetry. exact Hn.
Qed.

Lemma reload_after_incident_edit_witness :
  securityIncidentsPerMonth
    (reload (handleInputChange defaultInputs Key.securityIncidentsPerMonth 34))
  = 34.
Proof.
  pose proof (reload_after_incident_edit defaultInputs 34) as H. cbv zeta in H.
  destruct H as (_ & _ & _ & _ & H).
  apply (H 7%Z). reflexivity.
Defined.

(** X11. A stored object without an employee count loads with the default 500
    employees and what follows from them, 2400 incidents a month and a staff
    of 3, 1, 1 and 1, whatever else is stored; with nothing stored the
    default record is loaded. *)
Theorem load_without_employeeCount (parsed : Parsed.t) :
  Parsed.employeeCount parsed = None ->
  let loaded := loadInputsFromStorage (Some parsed) in
  employeeCount loaded = 500 /\
  securityIncidentsPerMonth loaded = 2400 /\
  humanSOCAnalysts loaded = 3 /\
  humanSOCManager loaded = 1 /\
  humanSOCEngineer loaded = 1 /\
  humanSOCDirector loaded = 1 /\
  loadInputsFromStorage None = defaultInputs.
Proof.
  intros E loaded. subst loaded. destruct parsed. cbn in E. subst.
  repeat split.
Qed.

Lemma load_without_employeeCount_witness :
  securityIncidentsPerMonth
    (loadInputsFromStorage
       (Some (Parsed.mk None None (Some 20) None None None (Some 3) None)))
  = 2400.
Proof.
  pose proof (load_without_employeeCount
                (Parsed.mk None None (Some 20) None None None (Some 3) None)) as H.
  cbv zeta in H. destruct H as [_ [H _]]; [reflexivity | exact H].
Defined.

(** * Further properties of the results *)

Lemma assign_reads (inputs : CalculationInputs) (fp rt lv : Q) :
  let r := inputs.[Key.falsePositiveRate <- fp]
                 .[Key.averageIncidentResponseTime <- rt]
                 .[Key.monthlyLogVolumeGB <- lv] in
  falsePositiveRate r = fp /\ averageIncidentResponseTime r = rt /\
  monthlyLogVolumeGB r = lv.
Proof. destruct inputs. repeat split. Qed.

(** X12. The annual savings are the efficiency share of the human cost, less the
    autonomous cost, plus the platform savings; the adjusted human cost is
    what remains of the human cost after that share. *)
Theorem annualSavings_decomposition (inputs : CalculationInputs) :
  let r := calculateROI inputs in
  annualSavings r ==
    humanSOCTotalCost r * (efficiencyImprovement r / 100)
    - autonomousSOCTotalCost r + platformSavings r /\
  humanSOCTotalCost r - adjustedAnnualSOCCost r ==
    humanSOCTotalCost r * (efficiencyImprovement r / 100).
Proof.
  intros r. subst r. unfold calculateROI. cbv zeta.
  cbn [annualSavings humanSOCTotalCost efficiencyImprovement autonomousSOCTotalCost
       platformSavings adjustedAnnualSOCCost].
  split; field.
Qed.

(** X13. With non-negative false-positive rate and response time and a
    non-negative human cost, the adjusted human cost lies between 20 and 62
    percent of the human cost. *)
Theorem adjustedAnnualSOCCost_bounds (inputs : CalculationInputs) :
  0 <= falsePositiveRate inputs ->
  0 <= averageIncidentResponseTime inputs ->
  0 <= humanSOCTotalCost (calculateROI inputs) ->
  let r := calculateROI inputs in
  humanSOCTotalCost r * 0.2 <= adjustedAnnualSOCCost r <= humanSOCTotalCost r * 0.62.
Proof.
  intros Hf Hr Hh r. subst r.
  pose proof (efficiency_bounds inputs Hf Hr) as [Lo Hi].
  rewrite <- efficiency_unfold in Lo, Hi.
  assert (adjustedAnnualSOCCost (calculateROI inputs)
          == humanSOCTotalCost (calculateROI inputs)
             * (1 - efficiencyImprovement (calculateROI inputs) * (1 # 100))) as E
    by (unfold calculateROI; cbv zeta; cbn [adjustedAnnualSOCCost humanSOCTotalCost
          efficiencyImprovement]; field).
  set (h := humanSOCTotalCost (calculateROI inputs)) in *.
  set (q := efficiencyImprovement (calculateROI inputs)) in *.
  clearbody h q.
  assert (0 <= h * (0.8 - q * (1 # 100))) as A by (apply Qmult_le_0_compat; lra).
  assert (0 <= h * (q * (1 # 100) - 0.38)) as B by (apply Qmult_le_0_compat; lra).
  rewrite E. split; lra.
Qed.

Lemma adjustedAnnualSOCCost_bounds_witness :
  humanSOCTotalCost (calculateROI defaultInputs) * 0.2
  <= adjustedAnnualSOCCost (calculateROI defaultInputs)
  <= humanSOCTotalCost (calculateROI defaultInputs) * 0.62.
Proof.
  apply (adjustedAnnualSOCCost_bounds defaultInputs); intros E; discriminate E.
Defined.

(** X14. When the autonomous cost is positive the ROI has the sign of the annual
    savings. *)
Theorem roiPercentage_sign (inputs : CalculationInputs) :
  0 < autonomousSOCAnnualCost inputs ->
  let r := calculateROI inputs in
  (0 < roiPercentage r <-> 0 < annualSavings r) /\
  (roiPercentage r < 0 <-> annualSavings r < 0).
Proof.
  intros C r. subst r.
  assert (~ autonomousSOCAnnualCost inputs == 0) as NZ by lra.
  rewrite (roi_nonzero_cost inputs NZ).
  assert (annualSavings (calculateROI inputs)
          == annualSavings (calculateROI inputs) / autonomousSOCAnnualCost inputs
             * autonomousSOCAnnualCost inputs) as E by (field; exact NZ).
  set (s := annualSavings (calculateROI inputs)) in *.
  set (c := autonomousSOCAnnualCost inputs) in *.
  set (q := s / c) in *. clearbody q s c.
  destruct (Qlt_le_dec 0 q) as [P | N].
  - assert (0 < q * c) as M by (apply Qmult_lt_0_compat; assumption).
    split; split; intros; lra.
  - assert (0 <= (- q) * c) as M by (apply Qmult_le_0_compat; lra).
    destruct (Qeq_dec q 0) as [Z | NZq].
    + assert (s == 0) as S0 by (rewrite E, Z; ring).
      split; split; intros; lra.
    + assert (0 < (- q) * c) as M' by (apply Qmult_lt_0_compat; lra).
      split; split; intros; lra.
Qed.

Lemma roiPercentage_sign_witness :
  0 < roiPercentage (calculateROI defaultInputs)
  <-> 0 < annualSavings (calculateROI defaultInputs).
Proof.
  pose proof (roiPercentage_sign defaultInputs) as H. cbv zeta in H.
  destruct H as [H _]; [reflexivity | exact H].
Defined.

Lemma cut_falsePositive_efficiency (fp : Q) :
  Qmin (Qmin fp 75 * 0.2) 15 == Qmin (fp * 0.2) 15.
Proof. split_min; lra. Qed.

Lemma cut_responseTime_efficiency (rt : Q) :
  Qmin (Qmin rt (25 # 3) * 3) 25 == Qmin (rt * 3) 25.
Proof. split_min; lra. Qed.

Lemma cut_logVolume_efficiency (lv : Q) :
  Qmin (Qmax 0 (Qmin (Qmax lv 1024) 16024 - 1024) * 0.001) 15
  == Qmin (Qmax 0 (lv - 1024) * 0.001) 15.
Proof. split_min; lra. Qed.

Lemma cut_responseTime_response (rt : Q) :
  Qmin (Qmin rt 7.5 * 2) 15 == Qmin (rt * 2) 15.
Proof. split_min; lra. Qed.

Lemma cut_falsePositive_response (fp : Q) :
  Qmin (Qmin fp (160 # 3) * 0.15) 8 == Qmin (fp * 0.15) 8.
Proof. split_min; lra. Qed.

(** X15. Saturation: the efficiency improvement does not change when the
    false-positive rate is cut at 75, the response time at 25/3 hours and
    the log volume to the range from 1024 to 16024 GB; the incident-response
    improvement does not change when the false-positive rate is cut at 160/3
    and the response time at 7.5 hours. *)
Theorem improvements_saturate (inputs : CalculationInputs) :
  efficiencyImprovement (calculateROI (saturated inputs 75 (25 # 3)))
  == efficiencyImprovement (calculateROI inputs) /\
  incidentResponseImprovement (calculateROI (saturated inputs (160 # 3) 7.5))
  == incidentResponseImprovement (calculateROI inputs).
Proof.
  rewrite !efficiency_unfold, !response_unfold.
  unfold calculateEfficiencyImprovement, calculateIncidentResponseImprovement,
    saturated, Math.min, Math.max.
  cbv zeta.
  split.
  - destruct (assign_reads inputs (Qmin (falsePositiveRate inputs) 75)
                (Qmin (averageIncidentResponseTime inputs) (25 # 3))
                (Qmin (Qmax (monthlyLogVolumeGB inputs) 1024) 16024))
      as (-> & -> & ->).
    rewrite cut_falsePositive_efficiency, cut_responseTime_efficiency,
      cut_logVolume_efficiency.
    reflexivity.
  - destruct (assign_reads inputs (Qmin (falsePositiveRate inputs) (160 # 3))
                (Qmin (averageIncidentResponseTime inputs) 7.5)
                (Qmin (Qmax (monthlyLogVolumeGB inputs) 1024) 16024))
      as (-> & -> & _).
    rewrite cut_responseTime_response, cut_falsePositive_response.
    reflexivity.
Qed.

(** * The operational view *)

Lemma ceil_whole_bounds (x : Q) (n : Z) :
  0 <= x -> x <= inject_Z n ->
  (0 <= Qceiling x <= n)%Z.
Proof.
  intros Lo Hi. split.
  - rewrite <- (Qceiling_Z 0). apply Qceiling_resp_le. exact Lo.
  - rewrite <- (Qceiling_Z n). apply Qceiling_resp_le. exact Hi.
Qed.

(** X16. The headcount split shown in the operational view: with a whole total
    headcount and non-negative false-positive rate and response time, the
    optimized and the freed headcount are whole numbers that add up to the
    total; at least a fifth of the staff remains, at least one person as soon
    as there is one; and the annual time saved is the efficiency share of
    2080 hours per person. *)
Theorem headcount_split (inputs : CalculationInputs) :
  0 <= falsePositiveRate inputs ->
  0 <= averageIncidentResponseTime inputs ->
  wholeNumber (humanSOCAnalysts inputs + humanSOCManager inputs
               + humanSOCEngineer inputs + humanSOCDirector inputs) ->
  let s := operationalSummary inputs (calculateROI inputs) in
  wholeNumber (optimizedHeadcount s) /\
  wholeNumber (freedEmployees s) /\
  optimizedHeadcount s + freedEmployees s == totalHeadcount s /\
  totalHeadcount s * 0.2 <= optimizedHeadcount s /\
  (1 <= totalHeadcount s -> 1 <= optimizedHeadcount s) /\
  annualTimeSavings s ==
    totalHeadcount s * 2080 * (efficiencyImprovement (calculateROI inputs) / 100).
Proof.
  intros Hf Hr (n & Hn & HT) s. subst s.
  pose proof (efficiency_bounds inputs Hf Hr) as [Lo Hi].
  rewrite <- efficiency_unfold in Lo, Hi.
  unfold operationalSummary. cbv zeta.
  cbn [totalHeadcount optimizedHeadcount freedEmployees annualTimeSavings].
  set (T := humanSOCAnalysts inputs + humanSOCManager inputs
            + humanSOCEngineer inputs + humanSOCDirector inputs) in *.
  set (q := efficiencyImprovement (calculateROI inputs)) in *.
  clearbody T q.
  assert (1 - q / 100 == 1 - q * (1 # 100)) as F by field.
  assert (0 <= T) as T0 by (rewrite HT; change 0 with (inject_Z 0);
                            now rewrite <- Zle_Qle).
  assert (0 <= T * (0.8 - q * (1 # 100))) as A by (apply Qmult_le_0_compat; lra).
  assert (0 <= T * (q * (1 # 100))) as B by (apply Qmult_le_0_compat; lra).
  set (x := T * (1 - q / 100)).
  assert (x == T * (1 - q * (1 # 100))) as X by (unfold x; now rewrite F).
  assert (0 <= x) as X0 by (rewrite X; lra).
  assert (x <= inject_Z n) as Xn by (rewrite X, <- HT; lra).
  pose proof (ceil_whole_bounds x n X0 Xn) as [C0 Cn].
  pose proof (Qle_ceiling x) as Cx.
  unfold Math.max, Math.ceil.
  set (c := Qceiling x) in *.
  assert (0 <= inject_Z c) as Ic
    by (change 0 with (inject_Z 0); now rewrite <- Zle_Qle).
  assert (inject_Z c <= T) as IT by (rewrite HT; now rewrite <- Zle_Qle).
  assert (Qmax 0 (inject_Z c) == inject_Z c) as M1 by (apply Q.max_r; exact Ic).
  assert (Qmax 0 (T - Qmax 0 (inject_Z c)) == T - inject_Z c) as M2
    by (rewrite M1; apply Q.max_r; lra).
  split; [exists c; split; [exact C0 | exact M1]|].
  split.
  { exists (n - c)%Z. split; [lia|].
    rewrite M2. unfold Z.sub. rewrite inject_Z_plus, inject_Z_opp, HT. reflexivity. }
  rewrite M2, M1.
  split; [ring|].
  split; [lra|].
  split.
  - intros T1.
    assert (0 < inject_Z c) as P by lra.
    change 0 with (inject_Z 0) in P. rewrite <- Zlt_Qlt in P.
    change 1 with (inject_Z 1). rewrite <- Zle_Qle. lia.
  - field.
Qed.

Lemma headcount_split_witness :
  optimizedHeadcount (operationalSummary defaultInputs (calculateROI defaultInputs))
  + freedEmployees (operationalSummary defaultInputs (calculateROI defaultInputs))
  == totalHeadcount (operationalSummary defaultInputs (calculateROI defaultInputs)).
Proof.
  pose proof (headcount_split defaultInputs) as H. cbv zeta in H.
  destruct H as (_ & _ & H & _).
  - intros E; discriminate E.
  - intros E; discriminate E.
  - exists 6%Z. split; [lia | reflexivity].
  - exact H.
Defined.

(** * Further properties of the value analysis *)

Section DescendingSort.

Let compare (a b : Category) : Q := value b - value a.

Lemma insert_Forall (P : Category -> Prop) (a : Category) (l : list Category) :
  P a -> Forall P l -> Forall P (insert compare a l).
Proof.
  intros Ha Hl.
  eapply Permutation_Forall; [symmetry; apply insert_perm | now constructor].
Qed.

Lemma insert_sorted (a : Category) (l : list Category) :
  StronglySorted listedBefore l -> StronglySorted listedBefore (insert compare a l).
Proof.
  induction 1 as [| b l S IH F]; cbn [insert].
  - repeat constructor.
  - destruct (Qle_bool (compare a b) 0) eqn:E.
    + apply Qle_bool_iff in E. unfold compare in E.
      constructor; [now constructor|].
      constructor; [unfold listedBefore; lra|].
      eapply Forall_impl; [|exact F].
      intros c Hc. unfold listedBefore in *. lra.
    + assert (~ compare a b <= 0) as N
        by (intros C; apply Qle_bool_iff in C; congruence).
      unfold compare in N.
      constructor; [exact IH|].
      apply insert_Forall; [unfold listedBefore; lra | exact F].
Qed.

Lemma sort_sorted (l : list Category) :
  StronglySorted listedBefore (sort compare l).
Proof.
  induction l as [|a l IH]; cbn [sort fold_right].
  - constructor.
  - apply insert_sorted. exact IH.
Qed.

End DescendingSort.

Lemma categories_length (props : Props.t) :
  List.length (ValueAnalysis.valueCategories props) = 10%nat.
Proof.
  unfold ValueAnalysis.valueCategories.
  rewrite (Permutation_length (sort_perm _ _)). reflexivity.
Qed.

Lemma categories_genuine_length (props : Props.t) :
  List.length (ValueAnalysisGenuine.valueCategories props) = 8%nat.
Proof.
  unfold ValueAnalysisGenuine.valueCategories.
  rewrite (Permutation_length (sort_perm _ _)). reflexivity.
Qed.

(** X17. The categories are listed by descending value, in both versions of the
    component: each one's value is at least that of every later one; there
    are ten of them in the first version and eight in the second. *)
Theorem valueCategories_descending (props : Props.t) :
  StronglySorted listedBefore (ValueAnalysis.valueCategories props) /\
  StronglySorted listedBefore (ValueAnalysisGenuine.valueCategories props) /\
  List.length (ValueAnalysis.valueCategories props) = 10%nat /\
  List.length (ValueAnalysisGenuine.valueCategories props) = 8%nat.
Proof.
  split; [apply sort_sorted|]. split; [apply sort_sorted|].
  split; [apply categories_length | apply categories_genuine_length].
Qed.

(** X18. With incidents, the false-positive reduction is negative exactly when
    the false-positive rate is below 5, zero exactly at 5; without incidents
    it is zero.  It is the same in both versions of the component. *)
Theorem falsePositiveReduction_sign (inputs : Props.inputs) :
  let reduction :=
    ValueAnalysis.falsePositiveReduction (ValueAnalysis.calculateValueMetrics inputs) in
  ValueAnalysisGenuine.falsePositiveReduction
    (ValueAnalysisGenuine.calculateValueMetrics inputs) = reduction /\
  (0 < Props.securityIncidentsPerMonth inputs ->
   (reduction < 0 <-> Props.falsePositiveRate inputs < 5) /\
   (reduction == 0 <-> Props.falsePositiveRate inputs == 5)) /\
  (Props.securityIncidentsPerMonth inputs == 0 -> reduction == 0).
Proof.
  intros reduction. subst reduction. split; [reflexivity|].
  rewrite falsePositiveReduction_factored.
  set (i := Props.securityIncidentsPerMonth inputs).
  set (f := Props.falsePositiveRate inputs).
  clearbody i f. split.
  - intros Hi.
    destruct (Q_dec f 5) as [[L | G] | E].
    + assert (0 < i * (5 - f)) as P by (apply Qmult_lt_0_compat; lra).
      split; split; intros; lra.
    + assert (0 < i * (f - 5)) as P by (apply Qmult_lt_0_compat; lra).
      split; split; intros; lra.
    + assert (i * (f - 5) == 0) as Z by (rewrite E; ring).
      split; split; intros; lra.
  - intros Z. rewrite Z. ring.
Qed.

Lemma falsePositiveReduction_sign_witness :
  ValueAnalysis.falsePositiveReduction
    (ValueAnalysis.calculateValueMetrics (Props.mkInputs 3 100 4 3 500)) < 0.
Proof.
  pose proof (falsePositiveReduction_sign (Props.mkInputs 3 100 4 3 500)) as H.
  cbv zeta in H. destruct H as [_ [H _]].
  destruct H as [[_ H] _]; [reflexivity|].
  apply H. reflexivity.
Defined.

(** The "Operational Efficiency" insight of the first version shows 30
    percent whatever the record, as long as there is an analyst. *)
Theorem automationShareShown_constant (props : Props.t) :
  ~ Props.humanSOCAnalysts (Props.inputs_ props) == 0 ->
  automationShareShown props == 30.
Proof.
  intros NZ. unfold automationShareShown, ValueAnalysis.calculateValueMetrics.
  cbv zeta. cbn [ValueAnalysis.automationValue]. field. exact NZ.
Qed.

Lemma automationShareShown_constant_witness :
  automationShareShown (valueAnalysisProps defaultInputs (calculateROI defaultInputs))
  == 30.
Proof.
  apply (automationShareShown_constant
           (valueAnalysisProps defaultInputs (calculateROI defaultInputs))).
  intros E; discriminate E.
Defined.

(** * The donut chart *)

Lemma Qltb_lt (x y : Q) : Qltb x y = true <-> x < y.
Proof.
  unfold Qltb. rewrite Bool.negb_true_iff. split.
  - intros E. apply Qnot_le_lt. intros C. apply Qle_bool_iff in C. congruence.
  - intros L. destruct (Qle_bool y x) eqn:E; [|reflexivity].
    apply Qle_bool_iff in E. lra.
Qed.

Lemma Qltb_ge (x y : Q) : Qltb x y = false <-> y <= x.
Proof.
  unfold Qltb. rewrite Bool.negb_false_iff. apply Qle_bool_iff.
Qed.

Lemma pie_fold_shift (data : list PieChart.Data) (a : Q) :
  fold_left (fun sum item => sum + PieChart.value item) data a
  == a + PieChart.total data.
Proof.
  unfold PieChart.total. revert a.
  induction data as [|item rest IH]; intros a; cbn [fold_left].
  - ring.
  - rewrite (IH (a + PieChart.value item)), (IH (0 + PieChart.value item)). ring.
Qed.

Lemma pie_total_cons (item : PieChart.Data) (rest : list PieChart.Data) :
  PieChart.total (item :: rest) == PieChart.value item + PieChart.total rest.
Proof.
  unfold PieChart.total at 1. cbn [fold_left]. rewrite pie_fold_shift. ring.
Qed.

Lemma pie_total_nonnegative (data : list PieChart.Data) :
  Forall (fun item => 0 <= PieChart.value item) data -> 0 <= PieChart.total data.
Proof.
  induction 1 as [|item rest Hv _ IH].
  - discriminate.
  - rewrite pie_total_cons. lra.
Qed.

Lemma last_cons_default {A : Type} (a d : A) (l : list A) :
  last (a :: l) d = last l a.
Proof.
  revert a d. induction l as [|b l IH]; intros a d; [reflexivity|].
  change (last (a :: b :: l) d) with (last (b :: l) d).
  rewrite (IH b d), (IH b a). reflexivity.
Qed.

Lemma arcsFrom_contiguous (total currentAngle : Q) (data : list PieChart.Data) :
  PieChart.contiguous currentAngle (PieChart.arcsFrom total currentAngle data).
Proof.
  revert currentAngle. induction data as [|item rest IH]; intros cur; cbn.
  - exact I.
  - split; [reflexivity | apply IH].
Qed.

Lemma arcsFrom_last (total currentAngle : Q) (data : list PieChart.Data) :
  last (map PieChart.endAngle (PieChart.arcsFrom total currentAngle data)) currentAngle
  == currentAngle + PieChart.total data / total * 360.
Proof.
  revert currentAngle. induction data as [|item rest IH]; intros cur.
  - unfold PieChart.total. cbn [PieChart.arcsFrom map last fold_left].
    unfold Qdiv. ring.
  - cbn [PieChart.arcsFrom map PieChart.createArc PieChart.endAngle].
    rewrite last_cons_default, IH, pie_total_cons. unfold Qdiv.
    change (/ 100) with (1 # 100). ring.
Qed.

Lemma arcsFrom_length (total currentAngle : Q) (data : list PieChart.Data) :
  List.length (PieChart.arcsFrom total currentAngle data) = List.length data.
Proof.
  revert currentAngle. induction data as [|item rest IH]; intros cur; cbn;
    [reflexivity | now rewrite IH].
Qed.

(** X19. The slices close the circle: when the total is not zero there is one
    slice per item, the first starts at the top (-90 degrees), each one
    starts where the one before it ends, and the last ends at 270 degrees, a
    full turn later. *)
Theorem arcs_close_circle (data : list PieChart.Data) :
  ~ PieChart.total data == 0 ->
  List.length (PieChart.arcs data) = List.length data /\
  PieChart.contiguous (-90) (PieChart.arcs data) /\
  last (map PieChart.endAngle (PieChart.arcs data)) (-90) == 270.
Proof.
  intros NZ. unfold PieChart.arcs.
  split; [apply arcsFrom_length|]. split; [apply arcsFrom_contiguous|].
  rewrite arcsFrom_last. field. exact NZ.
Qed.

Lemma arcsFrom_bounds (total currentAngle : Q) (data : list PieChart.Data) :
  0 < total ->
  Forall (fun item => 0 <= PieChart.value item) data ->
  Forall (fun a => currentAngle <= PieChart.startAngle a /\
                   PieChart.startAngle a <= PieChart.endAngle a /\
                   PieChart.endAngle a
                   <= currentAngle + PieChart.total data / total * 360)
    (PieChart.arcsFrom total currentAngle data).
Proof.
  intros HT Hv. revert currentAngle.
  induction Hv as [|item rest Hi Hrest IH]; intros cur; cbn [PieChart.arcsFrom].
  - constructor.
  - pose proof (pie_total_nonnegative rest Hrest) as R.
    assert (0 <= PieChart.value item / total) as S
      by (apply Qle_shift_div_l; lra).
    assert (0 <= PieChart.total rest / total) as T
      by (apply Qle_shift_div_l; lra).
    assert (PieChart.total (item :: rest) / total
            == PieChart.value item / total + PieChart.total rest / total) as E
      by (rewrite pie_total_cons; unfold Qdiv; ring).
    assert (cur + PieChart.value item / total * 100 * 360 / 100
            == cur + PieChart.value item / total * 360) as A by (field; lra).
    set (s := PieChart.value item / total) in *.
    set (t := PieChart.total rest / total) in *.
    constructor.
    + cbn [PieChart.createArc PieChart.startAngle PieChart.endAngle].
      rewrite E, A. repeat split; lra.
    + eapply Forall_impl; [|apply IH].
      intros a (B1 & B2 & B3). fold t in B3. rewrite A in B1, B3.
      rewrite E. repeat split; lra.
Qed.

(** X20. With non-negative values and a positive total, every slice runs forward
    within the turn from -90 to 270 degrees. *)
Theorem arcs_within_turn (data : list PieChart.Data) :
  Forall (fun item => 0 <= PieChart.value item) data ->
  0 < PieChart.total data ->
  Forall (fun a => -90 <= PieChart.startAngle a /\
                   PieChart.startAngle a <= PieChart.endAngle a /\
                   PieChart.endAngle a <= 270)
    (PieChart.arcs data).
Proof.
  intros Hv HT. unfold PieChart.arcs.
  eapply Forall_impl; [|apply arcsFrom_bounds; assumption].
  intros a (B1 & B2 & B3).
  assert (PieChart.total data / PieChart.total data * 360 == 360) as E
    by (field; lra).
  rewrite E in B3. repeat split; lra.
Qed.

Lemma sampleChart_nonnegative :
  Forall (fun item => 0 <= PieChart.value item) sampleChart.
Proof. repeat constructor; intros E; discriminate E. Qed.

Lemma arcs_close_circle_witness :
  last (map PieChart.endAngle (PieChart.arcs sampleChart)) (-90) == 270.
Proof.
  apply (arcs_close_circle sampleChart). intros E; discriminate E.
Defined.

Lemma arcs_within_turn_witness :
  Forall (fun a => -90 <= PieChart.startAngle a /\
                   PieChart.startAngle a <= PieChart.endAngle a /\
                   PieChart.endAngle a <= 270)
    (PieChart.arcs sampleChart).
Proof.
  apply (arcs_within_turn sampleChart).
  - exact sampleChart_nonnegative.
  - reflexivity.
Defined.

Section LargeArcs.

Variable total : Q.
Hypothesis total_positive : 0 < total.

Lemma largeArc_iff (currentAngle : Q) (item : PieChart.Data) :
  let percentage := PieChart.value item / total * 100 in
  PieChart.largeArcFlag
    (PieChart.createArc currentAngle (currentAngle + percentage * 360 / 100)) = 1%Z
  <-> total / 2 < PieChart.value item.
Proof.
  cbv zeta. unfold PieChart.createArc. cbn [PieChart.largeArcFlag].
  assert (PieChart.value item == PieChart.value item / total * total) as E
    by (field; lra).
  assert (currentAngle + PieChart.value item / total * 100 * 360 / 100 - currentAngle
          == PieChart.value item / total * 360) as A by (field; lra).
  assert (total / 2 == total * (1 # 2)) as H2 by field.
  rewrite H2.
  set (s := PieChart.value item / total) in *.
  destruct (Qle_bool _ 180) eqn:B.
  - apply Qle_bool_iff in B. rewrite A in B.
    split; [discriminate|]. intros L. exfalso.
    assert (0 <= (0.5 - s) * total) by (apply Qmult_le_0_compat; lra).
    lra.
  - split; [intros _ | reflexivity].
    assert (~ s * 360 <= 180) as N.
    { intros C. rewrite <- A in C. apply Qle_bool_iff in C. congruence. }
    assert (0 < (s - 0.5) * total) by (apply Qmult_lt_0_compat; lra).
    lra.
Qed.

Lemma largeArcs_weigh (currentAngle : Q) (data : list PieChart.Data) :
  Forall (fun item => 0 <= PieChart.value item) data ->
  let n := inject_Z (Z.of_nat (PieChart.largeArcs (PieChart.arcsFrom total currentAngle data))) in
  n * (total / 2) <= PieChart.total data /\
  (n == 0 \/ n * (total / 2) < PieChart.total data).
Proof.
  intros Hv. cbv zeta. revert currentAngle.
  induction Hv as [|item rest Hi Hrest IH]; intros cur.
  - cbn. split; [discriminate | left; reflexivity].
  - cbn [PieChart.arcsFrom]. unfold PieChart.largeArcs. cbn [filter].
    pose proof (largeArc_iff cur item) as L. cbv zeta in L.
    set (e := cur + PieChart.value item / total * 100 * 360 / 100) in *.
    specialize (IH e). cbv zeta in IH. unfold PieChart.largeArcs in IH.
    set (c := List.length (filter _ (PieChart.arcsFrom total e rest))) in *.
    destruct IH as [IH1 IH2].
    assert (0 <= inject_Z (Z.of_nat c)) as C0.
    { change 0 with (inject_Z 0). rewrite <- Zle_Qle. lia. }
    assert (total / 2 == total * (1 # 2)) as H2 by field.
    rewrite H2 in *.
    destruct (Z.eqb _ 1) eqn:F.
    + apply Z.eqb_eq in F. apply L in F.
      cbn [List.length]. fold c. rewrite Nat2Z.inj_succ. unfold Z.succ.
      rewrite inject_Z_plus. change (inject_Z 1) with 1.
      rewrite pie_total_cons.
      assert ((inject_Z (Z.of_nat c) + 1) * (total * (1 # 2))
              == inject_Z (Z.of_nat c) * (total * (1 # 2)) + total * (1 # 2)) as D
        by ring.
      rewrite D. split; [lra | right; lra].
    + fold c. rewrite pie_total_cons. split; [lra|].
      destruct IH2 as [Z | S]; [left; exact Z | right; lra].
Qed.

End LargeArcs.

(** X21. With non-negative values and a positive total at most one slice is
    drawn with the large-arc flag: only one item can exceed half the
    total. *)
Theorem at_most_one_large_arc (data : list PieChart.Data) :
  Forall (fun item => 0 <= PieChart.value item) data ->
  0 < PieChart.total data ->
  (PieChart.largeArcs (PieChart.arcs data) <= 1)%nat.
Proof.
  intros Hv HT.
  pose proof (largeArcs_weigh (PieChart.total data) HT (-90) data Hv) as [_ W].
  fold (PieChart.arcs data) in W.
  set (c := PieChart.largeArcs (PieChart.arcs data)) in *.
  destruct (Nat.le_gt_cases c 1) as [L | G]; [exact L | exfalso].
  assert (2 <= inject_Z (Z.of_nat c)) as C2.
  { change 2 with (inject_Z 2). rewrite <- Zle_Qle. lia. }
  assert (PieChart.total data / 2 == PieChart.total data * (1 # 2)) as H2 by field.
  rewrite H2 in W.
  assert (0 <= (inject_Z (Z.of_nat c) - 2) * (PieChart.total data * (1 # 2))) as P
    by (apply Qmult_le_0_compat; lra).
  destruct W as [Z | S]; lra.
Qed.

Lemma at_most_one_large_arc_witness :
  (PieChart.largeArcs (PieChart.arcs sampleChart) <= 1)%nat.
Proof.
  apply (at_most_one_large_arc sampleChart).
  - exact sampleChart_nonnegative.
  - reflexivity.
Defined.

(** The anchor [createArc] keeps for a tooltip of a given size: within the
    margins, for a drawing wide and high enough to hold the tooltip. *)
Lemma adjustTooltip_bounds (size w h x y : Q) :
  20 + w <= size -> 20 + h + h * (1 # 2) <= size ->
  let p := PieChart.adjustTooltip size w h x y in
  10 + w * (1 # 2) <= fst p <= size - 10 - w * (1 # 2) /\
  10 + h <= snd p <= size - 10 - h * (1 # 2).
Proof.
  intros Hw Hh p. subst p. unfold PieChart.adjustTooltip. cbv zeta.
  cbn [fst snd].
  assert (w / 2 == w * (1 # 2)) as W by field.
  assert (h / 2 == h * (1 # 2)) as H by field.
  split.
  - destruct (Qltb (x - w / 2) 10) eqn:A.
    + rewrite W. split; lra.
    + apply Qltb_ge in A. destruct (Qltb (size - 10) (x + w / 2)) eqn:B.
      * rewrite W. split; lra.
      * apply Qltb_ge in B. rewrite W in A, B. split; lra.
  - destruct (Qltb (y - h) 10) eqn:A.
    + split; lra.
    + apply Qltb_ge in A. destruct (Qltb (size - 10) (y + h / 2)) eqn:B.
      * rewrite H. split; lra.
      * apply Qltb_ge in B. rewrite H in B. split; lra.
Qed.

(** X22. First version of the chart: in a drawing of 180 or more, the tooltip
    rectangle of 160 by 90 lies within the drawing wherever the slice is. *)
Theorem tooltip_fixed_inside (size tooltipX tooltipY : Q) :
  180 <= size ->
  PieChart.inside size (PieChart.tooltipRectFixed size tooltipX tooltipY).
Proof.
  intros S. unfold PieChart.tooltipRectFixed. cbv zeta.
  assert (20 + 160 <= size) as Hw by lra.
  assert (20 + 90 + 90 * (1 # 2) <= size) as Hh by lra.
  pose proof (adjustTooltip_bounds size 160 90 tooltipX tooltipY Hw Hh) as B.
  cbv zeta in B.
  set (p := PieChart.adjustTooltip size 160 90 tooltipX tooltipY) in *.
  destruct B as [[X1 X2] [Y1 Y2]].
  unfold PieChart.inside.
  cbn [PieChart.x PieChart.y PieChart.width PieChart.height].
  repeat split; lra.
Qed.

Lemma tooltip_fixed_inside_witness :
  PieChart.inside 400 (PieChart.tooltipRectFixed 400 395 2).
Proof.
  apply (tooltip_fixed_inside 400 395 2). intros E; discriminate E.
Defined.

Lemma getTooltipDimensions_bounds (name : string) (valueLength : nat)
  (description : option string) :
  let d := PieChart.getTooltipDimensions name valueLength description in
  160 <= fst d <= 300 /\ (snd d = 90 \/ snd d = 110).
Proof.
  cbv zeta. unfold PieChart.getTooltipDimensions, Math.max, Math.min. cbv zeta.
  cbn [fst snd]. split.
  - split_min; lra.
  - destruct description as [d|]; [destruct (Nat.ltb 0 (String.length d))|];
      auto.
Qed.

(** X23. Second version of the chart: the tooltip is between 160 and 300 wide
    and 90 or 110 high, and in a drawing of 320 or more its rectangle lies
    within the drawing wherever the slice is and whatever the texts are. *)
Theorem tooltip_fitted_inside (size : Q) (item : PieChart.Data)
  (valueLength : nat) (tooltipX tooltipY : Q) :
  320 <= size ->
  let r := PieChart.tooltipRectFitted size item valueLength tooltipX tooltipY in
  PieChart.inside size r /\
  160 <= PieChart.width r <= 300 /\
  (PieChart.height r = 90 \/ PieChart.height r = 110).
Proof.
  intros S r. subst r. unfold PieChart.tooltipRectFitted.
  pose proof (getTooltipDimensions_bounds (PieChart.name item) valueLength
                (PieChart.description item)) as D.
  cbv zeta in D.
  destruct (PieChart.getTooltipDimensions (PieChart.name item) valueLength
              (PieChart.description item)) as [w h].
  cbn [fst snd] in D. destruct D as [[W1 W2] Hh]. cbv zeta.
  assert (90 <= h <= 110) as [H1 H2] by (destruct Hh as [-> | ->]; split; lra).
  assert (20 + w <= size) as Hw by lra.
  assert (20 + h + h * (1 # 2) <= size) as Hs by lra.
  pose proof (adjustTooltip_bounds size w h tooltipX tooltipY Hw Hs) as B.
  cbv zeta in B.
  set (p := PieChart.adjustTooltip size w h tooltipX tooltipY) in *.
  destruct B as [[X1 X2] [Y1 Y2]].
  assert (w / 2 == w * (1 # 2)) as Ew by field.
  unfold PieChart.inside.
  cbn [PieChart.x PieChart.y PieChart.width PieChart.height].
  rewrite Ew. repeat split; try lra; exact Hh.
Qed.

Lemma tooltip_fitted_inside_witness :
  PieChart.inside 500
    (PieChart.tooltipRectFitted 500
       (PieChart.mkData "Risk Reduction" 43200000 "#60A5FA"
          (Some "Prevented incident escalation costs"%string))
       11 480 20).
Proof.
  apply (tooltip_fitted_inside 500
           (PieChart.mkData "Risk Reduction" 43200000 "#60A5FA"
              (Some "Prevented incident escalation costs"%string))
           11 480 20).
  intros E; discriminate E.
Defined.

Lemma chartDataFrom_colors (palette : list string) (index : nat)
  (categories : list Category) :
  map PieChart.color (chartDataFrom palette index categories)
  = map (getColorForCategory palette) (seq index (List.length categories)).
Proof.
  revert index. induction categories as [|c rest IH]; intros index; cbn.
  - reflexivity.
  - now rewrite IH.
Qed.

Lemma chartDataFrom_values (palette : list string) (index : nat)
  (categories : list Category) :
  map PieChart.value (chartDataFrom palette index categories) = map value categories.
Proof.
  revert index. induction categories as [|c rest IH]; intros index; cbn.
  - reflexivity.
  - now rewrite IH.
Qed.

(** X24. The data handed to the chart carry the category values in the order of
    the list, and no two slices have the same colour, in both versions of
    the component. *)
Theorem chart_colors_distinct (props : Props.t) :
  NoDup (map PieChart.color (chartData props)) /\
  NoDup (map PieChart.color (chartDataGenuine props)) /\
  map PieChart.value (chartData props)
  = map value (ValueAnalysis.valueCategories props) /\
  map PieChart.value (chartDataGenuine props)
  = map value (ValueAnalysisGenuine.valueCategories props).
Proof.
  unfold chartData, chartDataGenuine.
  rewrite !chartDataFrom_colors, !chartDataFrom_values,
    categories_length, categories_genuine_length.
  split; [|split; [|split; reflexivity]];
    cbn; repeat constructor; cbn; intuition discriminate.
Qed.

(** * The dial *)

Section Normalize.

Import CircularSlider.

Lemma whileNegative_spec (fuel : nat) (x : Q) :
  0 <= x + 360 * inject_Z (Z.of_nat fuel) ->
  0 <= whileNegative fuel x /\
  (0 <= x -> whileNegative fuel x = x) /\
  (x < 0 -> whileNegative fuel x < 360) /\
  exists k : Z, whileNegative fuel x == x + 360 * inject_Z k.
Proof.
  revert x. induction fuel as [|fuel IH]; intros x H.
  - cbn [whileNegative]. change (inject_Z (Z.of_nat 0)) with 0 in H.
    repeat split; try lra. exists 0%Z. change (inject_Z 0) with 0. ring.
  - cbn [whileNegative]. rewrite Nat2Z.inj_succ in H. unfold Z.succ in H.
    rewrite inject_Z_plus in H. change (inject_Z 1) with 1 in H.
    destruct (Qltb x 0) eqn:N.
    + apply Qltb_lt in N.
      destruct (IH (x + 360)) as (R0 & Rk & Rn & k & Ek); [lra|].
      split; [exact R0|]. split; [intros; lra|]. split.
      * intros _. destruct (Qlt_le_dec (x + 360) 0) as [L | G].
        -- now apply Rn.
        -- rewrite (Rk G). lra.
      * exists (k + 1)%Z. rewrite Ek, inject_Z_plus.
        change (inject_Z 1) with 1. ring.
    + apply Qltb_ge in N. repeat split; try lra.
      exists 0%Z. change (inject_Z 0) with 0. ring.
Qed.

Lemma whileFullTurn_spec (fuel : nat) (x : Q) :
  0 <= x -> x < 360 * (inject_Z (Z.of_nat fuel) + 1) ->
  0 <= whileFullTurn fuel x < 360 /\
  exists k : Z, whileFullTurn fuel x == x + 360 * inject_Z k.
Proof.
  revert x. induction fuel as [|fuel IH]; intros x H0 H.
  - cbn [whileFullTurn]. change (inject_Z (Z.of_nat 0)) with 0 in H.
    split; [split; lra|]. exists 0%Z. change (inject_Z 0) with 0. ring.
  - cbn [whileFullTurn]. rewrite Nat2Z.inj_succ in H. unfold Z.succ in H.
    rewrite inject_Z_plus in H. change (inject_Z 1) with 1 in H.
    destruct (Qle_bool 360 x) eqn:N.
    + apply Qle_bool_iff in N.
      destruct (IH (x - 360)) as (R & k & Ek); [lra | lra |].
      split; [exact R|].
      exists (k - 1)%Z. rewrite Ek. unfold Z.sub.
      rewrite inject_Z_plus, inject_Z_opp. change (inject_Z 1) with 1. ring.
    + assert (x < 360) as L.
      { apply Qnot_le_lt. intros C. apply Qle_bool_iff in C. congruence. }
      split; [split; lra|]. exists 0%Z. change (inject_Z 0) with 0. ring.
Qed.

Lemma turns_enough (x : Q) : Qabs x <= 360 * inject_Z (Z.of_nat (turns x)).
Proof.
  unfold turns.
  assert (0 <= Qabs x / 360) as P
    by (apply Qle_shift_div_l; [reflexivity | pose proof (Qabs_nonneg x); lra]).
  pose proof (Qle_ceiling (Qabs x / 360)) as C.
  assert (0 <= Qceiling (Qabs x / 360))%Z as Z0.
  { rewrite <- (Qceiling_Z 0). apply Qceiling_resp_le. exact P. }
  rewrite Z2Nat.id by exact Z0.
  assert (Qabs x == Qabs x / 360 * 360) as E by field.
  rewrite E at 1. lra.
Qed.

(** The two loops end, with an angle that is at least 0, below 360 and a
    whole number of turns from the one given. *)
Lemma normalize_spec (x : Q) :
  0 <= normalize x < 360 /\ exists k : Z, normalize x == x + 360 * inject_Z k.
Proof.
  unfold normalize.
  pose proof (turns_enough x) as T.
  pose proof (Qle_Qabs x) as A1.
  pose proof (Qle_Qabs (- x)) as A2. rewrite Qabs_opp in A2.
  destruct (whileNegative_spec (turns x) x) as (R0 & Rk & Rn & k & Ek); [lra|].
  set (y := whileNegative (turns x) x) in *.
  assert (y < 360 * (inject_Z (Z.of_nat (turns x)) + 1)) as Y.
  { destruct (Qlt_le_dec x 0) as [L | G].
    - specialize (Rn L).
      assert (0 <= inject_Z (Z.of_nat (turns x))) as P
        by (change 0 with (inject_Z 0); rewrite <- Zle_Qle; lia).
      lra.
    - rewrite (Rk G). lra. }
  destruct (whileFullTurn_spec (turns x) y R0 Y) as (R & k' & Ek').
  split; [exact R|].
  exists (k + k')%Z. rewrite Ek', Ek, inject_Z_plus. ring.
Qed.

Lemma congruent_in_turn (a b : Q) (k : Z) :
  0 <= a < 360 -> 0 <= b < 360 -> a == b + 360 * inject_Z k -> a == b.
Proof.
  intros [A0 A1] [B0 B1] E.
  assert (inject_Z (-1) < inject_Z k) as L
    by (change (inject_Z (-1)) with (-1); lra).
  assert (inject_Z k < inject_Z 1) as U
    by (change (inject_Z 1) with 1; lra).
  rewrite <- Zlt_Qlt in L, U.
  assert (k = 0%Z) as -> by lia.
  rewrite E. change (inject_Z 0) with 0. ring.
Qed.

Lemma normalize_congruent (x y : Q) (k : Z) :
  x == y + 360 * inject_Z k -> normalize x == normalize y.
Proof.
  intros E.
  destruct (normalize_spec x) as (Rx & kx & Ex).
  destruct (normalize_spec y) as (Ry & ky & Ey).
  apply (congruent_in_turn _ _ (kx + k - ky)); [exact Rx | exact Ry |].
  rewrite Ex, Ey, E. unfold Z.sub.
  rewrite !inject_Z_plus, inject_Z_opp. ring.
Qed.

End Normalize.

Lemma Qle_bool_comp (a b c d : Q) : a == c -> b == d -> Qle_bool a b = Qle_bool c d.
Proof.
  intros E F. destruct (Qle_bool c d) eqn:R.
  - apply Qle_bool_iff. apply Qle_bool_iff in R. now rewrite E, F.
  - destruct (Qle_bool a b) eqn:L; [|reflexivity].
    apply Qle_bool_iff in L. rewrite E, F in L. apply Qle_bool_iff in L. congruence.
Qed.

Lemma Qltb_comp (a b c d : Q) : a == c -> b == d -> Qltb a b = Qltb c d.
Proof. intros E F. unfold Qltb. f_equal. now apply Qle_bool_comp. Qed.

(** X26. The angle normalisation of [rotationToValue] ends with an angle from 0
    up to, but not including, 360 that differs from the angle given by a
    whole number of turns; hence angles a whole number of turns apart give
    the same value. *)
Theorem rotationToValue_periodic (min max step rotation : Q) (k : Z) :
  0 <= CircularSlider.normalize rotation < 360 /\
  (exists n : Z, CircularSlider.normalize rotation == rotation + 360 * inject_Z n) /\
  CircularSlider.rotationToValue min max step (rotation + 360 * inject_Z k)
  = CircularSlider.rotationToValue min max step rotation.
Proof.
  destruct (normalize_spec rotation) as [R K].
  split; [exact R|]. split; [exact K|].
  unfold CircularSlider.rotationToValue. cbv zeta.
  assert (CircularSlider.normalize (rotation + 360 * inject_Z k)
          == CircularSlider.normalize rotation) as N
    by (apply (normalize_congruent _ _ k); reflexivity).
  assert (CircularSlider.normalize
            (CircularSlider.normalize (rotation + 360 * inject_Z k) - 140)
          == CircularSlider.normalize (CircularSlider.normalize rotation - 140)) as A.
  { apply (normalize_congruent _ _ 0). rewrite N.
    change (inject_Z 0) with 0. ring. }
  set (a := CircularSlider.normalize
              (CircularSlider.normalize (rotation + 360 * inject_Z k) - 140)) in *.
  set (b := CircularSlider.normalize (CircularSlider.normalize rotation - 140)) in *.
  clearbody a b.
  rewrite (Qle_bool_comp 135 a 135 b), (Qle_bool_comp a 225 b 225),
    (Qltb_comp 225 a 225 b) by (exact A || reflexivity).
  f_equal.
  destruct (Qle_bool 135 b && Qle_bool b 225)%bool; [|destruct (Qltb 225 b)];
    apply round_comp; rewrite A; reflexivity.
Qed.




(** The rotation of the indicator: for [min < max] it falls from 140
    degrees at [min] to -132 degrees at [max], and never rises with the
    value. *)
Theorem valueToRotation_range (min max val val' : Q) :
  min < max ->
  min <= val -> val <= val' -> val' <= max ->
  CircularSlider.valueToRotation min max min == 140 /\
  CircularSlider.valueToRotation min max max == -132 /\
  -132 <= CircularSlider.valueToRotation min max val' /\
  CircularSlider.valueToRotation min max val'
  <= CircularSlider.valueToRotation min max val /\
  CircularSlider.valueToRotation min max val <= 140.
Proof.
  intros M L V U. unfold CircularSlider.valueToRotation. cbv zeta.
  assert ((min - min) / (max - min) == 0) as E0 by (field; lra).
  assert ((max - min) / (max - min) == 1) as E1 by (field; lra).
  assert (0 <= (val - min) / (max - min)) as P0
    by (apply Qle_shift_div_l; lra).
  assert ((val' - min) / (max - min) <= 1) as P1
    by (apply Qle_shift_div_r; lra).
  assert ((val - min) / (max - min) <= (val' - min) / (max - min)) as P.
  { unfold Qdiv. apply Qmult_le_compat_r; [lra|].
    apply Qinv_le_0_compat. lra. }
  rewrite E0, E1.
  set (s := (val - min) / (max - min)) in *.
  set (s' := (val' - min) / (max - min)) in *.
  repeat split; lra.
Qed.

Lemma valueToRotation_range_witness :
  CircularSlider.valueToRotation 0 5000 2500
  <= CircularSlider.valueToRotation 0 5000 500.
Proof.
  assert (0 < 5000) as M by reflexivity.
  assert (0 <= 500) as L by (intros E; discriminate E).
  assert (500 <= 2500) as V by (intros E; discriminate E).
  assert (2500 <= 5000) as U by (intros E; discriminate E).
  exact (proj1 (proj2 (proj2 (proj2 (valueToRotation_range 0 5000 500 2500 M L V U))))).
Defined.

Lemma square_bound (a b r : Q) : 0 <= r -> a * a + b * b <= r * r -> - r <= a <= r.
Proof.
  intros R H.
  assert (0 <= b * b) as B.
  { destruct (Qlt_le_dec b 0) as [N | P].
    - assert (0 <= (- b) * (- b)) by (apply Qmult_le_0_compat; lra). lra.
    - apply Qmult_le_0_compat; exact P. }
  split.
  - apply Qnot_lt_le. intros C.
    assert (0 < (- a - r) * (- a + r)) by (apply Qmult_lt_0_compat; lra). lra.
  - apply Qnot_lt_le. intros C.
    assert (0 < (a - r) * (a + r)) by (apply Qmult_lt_0_compat; lra). lra.
Qed.

(** X28. Pointer events outside the square around the knob are ignored: for a
    knob of half-width [r], a point left of, right of, above or below the
    square from 0 to 2r leads to no call of [onChange]. *)
Theorem pointer_outside_ignored (min max step value r deg : Q)
  (p : CircularSlider.Point) :
  0 <= r ->
  CircularSlider.x p < 0 \/ 2 * r < CircularSlider.x p \/
  CircularSlider.y p < 0 \/ 2 * r < CircularSlider.y p ->
  CircularSlider.handlePointerChange min max step value p r deg = None.
Proof.
  intros R O. unfold CircularSlider.handlePointerChange.
  destruct (CircularSlider.inCircle p r) eqn:C; [exfalso | reflexivity].
  unfold CircularSlider.inCircle in C. cbv zeta in C. apply Qle_bool_iff in C.
  pose proof (square_bound _ _ _ R C) as X.
  assert ((r - CircularSlider.y p) * (r - CircularSlider.y p)
          + (r - CircularSlider.x p) * (r - CircularSlider.x p) <= r * r) as C'
    by lra.
  pose proof (square_bound _ _ _ R C') as Y.
  destruct O as [O | [O | [O | O]]]; lra.
Qed.

Lemma pointer_outside_ignored_witness :
  CircularSlider.handlePointerChange 0 5000 50 500
    (CircularSlider.mkPoint 450 100) 200 30 = None.
Proof.
  apply (pointer_outside_ignored 0 5000 50 500 200 30 (CircularSlider.mkPoint 450 100)).
  - intros E; discriminate E.
  - right. left. reflexivity.
Defined.




(** * Frame of the edits and the chart of a record *)

(** X30. What the other edits never touch: an edit of a key other than the
    employee count and the incident count changes neither of the two, and
    unless it is an edit of a headcount it changes no headcount. *)
Theorem non_driving_edit_frame (prev : CalculationInputs) (field : Key.t)
  (value : Key.value field) :
  isDrivingKey field = false ->
  let next := handleInputChange prev field value in
  employeeCount next = employeeCount prev /\
  securityIncidentsPerMonth next = securityIncidentsPerMonth prev /\
  (isStaffKey field = false ->
   humanSOCAnalysts next = humanSOCAnalysts prev /\
   humanSOCManager next = humanSOCManager prev /\
   humanSOCEngineer next = humanSOCEngineer prev /\
   humanSOCDirector next = humanSOCDirector prev).
Proof.
  intros D next. subst next. destruct prev.
  destruct field; try discriminate D; cbn;
    (split; [reflexivity|]; split; [reflexivity|]);
    intros S; try discriminate S; repeat split.
Qed.

Lemma non_driving_edit_frame_witness :
  humanSOCAnalysts (handleInputChange defaultInputs Key.logVolumeIncidentRatio 9)
  = humanSOCAnalysts defaultInputs.
Proof.
  pose proof (non_driving_edit_frame defaultInputs Key.logVolumeIncidentRatio 9) as H.
  cbv zeta in H. destruct H as [_ [_ H]]; [reflexivity|].
  destruct H as [H _]; [reflexivity | exact H].
Defined.

Lemma sum_nonnegative (l : list Q) : Forall (fun v => 0 <= v) l -> 0 <= sum l.
Proof.
  induction 1 as [|v l Hv _ IH].
  - discriminate.
  - rewrite sum_cons. lra.
Qed.

Lemma sum_positive (l : list Q) :
  Forall (fun v => 0 <= v) l -> Exists (fun v => 0 < v) l -> 0 < sum l.
Proof.
  intros F E. induction E as [v l Hv | v l _ IH].
  - inversion F as [|? ? _ Fl]; subst.
    pose proof (sum_nonnegative l Fl). rewrite sum_cons. lra.
  - inversion F as [|? ? Hv Fl]; subst.
    specialize (IH Fl). rewrite sum_cons. lra.
Qed.

Lemma pie_total_sum (data : list PieChart.Data) :
  PieChart.total data == sum (map PieChart.value data).
Proof.
  induction data as [|item rest IH].
  - reflexivity.
  - cbn [map]. rewrite pie_total_cons, sum_cons, IH. reflexivity.
Qed.

Lemma productivity_listed (props : Props.t) :
  exists c : Category,
    In c (ValueAnalysis.valueCategories props) /\
    value c == Props.humanSOCAnalysts (Props.inputs_ props) * 51000.
Proof.
  eexists. split.
  - unfold ValueAnalysis.valueCategories.
    eapply Permutation_in; [symmetry; apply sort_perm|].
    right. right. left. reflexivity.
  - cbn. field.
Qed.

Lemma productivity_genuine_listed (props : Props.t) :
  exists c : Category,
    In c (ValueAnalysisGenuine.valueCategories props) /\
    value c == Props.humanSOCAnalysts (Props.inputs_ props) * 51000.
Proof.
  eexists. split.
  - unfold ValueAnalysisGenuine.valueCategories.
    eapply Permutation_in; [symmetry; apply sort_perm|].
    right. right. left. reflexivity.
  - cbn. field.
Qed.

Lemma listed_positive (categories : list Category) (c : Category) :
  Forall nonnegativeValue categories -> In c categories -> 0 < value c ->
  0 < sum (map value categories).
Proof.
  intros F I P. apply sum_positive.
  - apply Forall_map. exact F.
  - apply Exists_exists. exists (value c). split; [now apply in_map | exact P].
Qed.

(** X25. The chart of a record is well formed: for a record of non-negative
    fields with a false-positive rate from 5 to 100 and at least one analyst,
    the data handed to the chart have non-negative values and a positive
    total, which is the total value of the analysis, in both versions of the
    component. *)
Theorem value_chart_well_formed (inputs : CalculationInputs) :
  nonnegativeInputs inputs ->
  5 <= falsePositiveRate inputs <= 100 ->
  0 < humanSOCAnalysts inputs ->
  let props := valueAnalysisProps inputs (calculateROI inputs) in
  (Forall (fun item => 0 <= PieChart.value item) (chartData props) /\
   0 < PieChart.total (chartData props) /\
   PieChart.total (chartData props) == ValueAnalysis.totalValue props) /\
  (Forall (fun item => 0 <= PieChart.value item) (chartDataGenuine props) /\
   0 < PieChart.total (chartDataGenuine props) /\
   PieChart.total (chartDataGenuine props) == ValueAnalysisGenuine.totalValue props).
Proof.
  intros N R A props.
  pose proof (breakdown_values_nonnegative inputs N R) as F1.
  pose proof (breakdown_genuine_values_nonnegative inputs N R) as F2.
  fold props in F1, F2.
  assert (0 < Props.humanSOCAnalysts (Props.inputs_ props) * 51000) as P
    by (subst props; cbn [valueAnalysisProps Props.inputs_ Props.humanSOCAnalysts]; lra).
  split.
  - assert (PieChart.total (chartData props)
            == sum (map value (ValueAnalysis.valueCategories props))) as T
      by (rewrite pie_total_sum; unfold chartData;
          now rewrite chartDataFrom_values).
    split; [|split].
    + apply Forall_map. unfold chartData. rewrite chartDataFrom_values.
      apply Forall_map. exact F1.
    + rewrite T. destruct (productivity_listed props) as (c & I & V).
      apply (listed_positive _ c F1 I). rewrite V. exact P.
    + rewrite T. apply categories_total.
  - assert (PieChart.total (chartDataGenuine props)
            == sum (map value (ValueAnalysisGenuine.valueCategories props))) as T
      by (rewrite pie_total_sum; unfold chartDataGenuine;
          now rewrite chartDataFrom_values).
    split; [|split].
    + apply Forall_map. unfold chartDataGenuine. rewrite chartDataFrom_values.
      apply Forall_map. exact F2.
    + rewrite T. destruct (productivity_genuine_listed props) as (c & I & V).
      apply (listed_positive _ c F2 I). rewrite V. exact P.
    + rewrite T. apply categories_genuine_total.
Qed.

Lemma value_chart_well_formed_witness :
  0 < PieChart.total
        (chartData (valueAnalysisProps defaultInputs (calculateROI defaultInputs))).
Proof.
  pose proof (value_chart_well_formed defaultInputs) as H. cbv zeta in H.
  destruct H as [[_ [H _]] _].
  - apply (defaults_nonnegative 90). intros E; discriminate E.
  - split; intros E; discriminate E.
  - reflexivity.
  - exact H.
Defined.
